(** * Vane Bookish API (src/server.js): a shallow embedding of the route
      handlers, the Mongoose queries they issue and the seed loader.

    The Express handlers are [async] functions that read the [Book]
    collection and write to the response object [res].  They are embedded
    as computations in a small state-and-exception monad over a [World]
    that holds the collection and the state of [res]. *)

From Stdlib Require Import String Ascii List Bool ZArith QArith Lia.
From Stdlib Require Import Permutation.
From Stdlib Require DecimalString DecimalZ DecimalN DecimalPos.
Import ListNotations.

Local Open Scope string_scope.
Local Open Scope Z_scope.

(** ** Data model (server.js:14-25) *)

(** One document of the [Book] model.  The schema types every numeric
    field as [Number]; identifiers, page and review counts are integers
    in the data and are kept as [Z], the rating is a fraction and is kept
    as an exact rational. *)
Record Book : Type := mkBook {
  bookID : Z;
  title : string;
  authors : string;
  average_rating : Q;
  isbn : string;
  isbn13 : Z;
  language_code : string;
  num_pages : Z;
  ratings_count : Z;
  text_reviews_count : Z
}.

(** ** The response object *)

(** What a handler passes to [res.json]. *)
Inductive Json : Type :=
| JString (s : string)          (* res.json("...") *)
| JBook (b : Book)              (* res.json(singleBook) *)
| JBooks (l : list Book)        (* res.json(<array of documents>) *)
| JError (msg : string).        (* res.json({ error: msg }) *)

Inductive Body : Type :=
| Text (s : string)             (* res.send(string) *)
| JsonBody (j : Json).          (* res.json(value) *)

Record Response : Type := mkResponse {
  status : nat;
  body : Body
}.

(** Failures a handler can meet. *)
Inductive Exn : Type :=
| CastError                (* Mongoose: a query value does not cast to the schema type *)
| SyntaxError              (* new RegExp: invalid regular expression *)
| ERR_HTTP_HEADERS_SENT    (* Node: headers set after the response was sent *)
| MongoError.              (* the store rejects an operation (connection lost, time-out) *)

(** [db] is the collection in store order.  [statusCode] is the status
    that the next write will carry ([res.status(n)] sets it).  [calls]
    lists, oldest first, every call of [res.send] / [res.json] the handler
    has made; only the first of them reaches the client, a later one finds
    the headers sent and throws. *)
Record World : Type := mkWorld {
  db : list Book;
  statusCode : nat;
  calls : list Response
}.

Definition headersSent (w : World) : bool :=
  match calls w with [] => false | _ :: _ => true end.

(** The response the client receives. *)
Definition delivered (w : World) : option Response := hd_error (calls w).

(** ** The handler monad *)

(** How a computation ends.  [OutOfModel] marks an execution that leaves
    the part of the libraries that is modelled here (see [RegExp_new]);
    nothing is claimed about such an execution. *)
Inductive Completion (A : Type) : Type :=
| Returns (a : A)
| Throws (e : Exn)
| OutOfModel.
Arguments Returns {A} a.
Arguments Throws {A} e.
Arguments OutOfModel {A}.

Definition M (A : Type) : Type := World -> World * Completion A.

Definition ret {A} (a : A) : M A := fun w => (w, Returns a).

Definition bind {A B} (c : M A) (k : A -> M B) : M B :=
  fun w =>
    match c w with
    | (w', Returns a) => k a w'
    | (w', Throws e) => (w', Throws e)
    | (w', OutOfModel) => (w', OutOfModel)
    end.

Definition throw {A} (e : Exn) : M A := fun w => (w, Throws e).

(** [try { c } catch (err) { h err }] *)
Definition try_catch {A} (c : M A) (h : Exn -> M A) : M A :=
  fun w =>
    match c w with
    | (w', Throws e) => h e w'
    | r => r
    end.

Notation "x <- c1 ;; c2" := (bind c1 (fun x => c2))
  (at level 61, c1 at next level, right associativity).
Notation "c1 ;; c2" := (bind c1 (fun _ => c2))
  (at level 61, right associativity).

(** [res.status(n)] *)
Definition res_status (n : nat) : M unit :=
  fun w => (mkWorld (db w) n (calls w), Returns tt).

(** Writing a body: the first write sends the response with the current
    status; a write after that throws. *)
Definition res_write (b : Body) : M unit :=
  fun w =>
    let w' := mkWorld (db w) (statusCode w) (calls w ++ [mkResponse (statusCode w) b]) in
    if headersSent w then (w', Throws ERR_HTTP_HEADERS_SENT) else (w', Returns tt).

(** [res.send(text)] and [res.json(value)] *)
Definition res_send (s : string) : M unit := res_write (Text s).
Definition res_json (j : Json) : M unit := res_write (JsonBody j).

(** ** Converting the [:bookID] parameter to a number *)

(** A JavaScript number: NaN, an infinity, or a finite double, kept as
    the rational it stands for. *)
Inductive JSNumber : Type :=
| NaN
| Infinity (negative : bool)
| Finite (q : Q).

(** [n / d] rounded to the nearest integer, a tie to the even one
    ([0 <= n], [0 < d]). *)
Definition round_half_even (n d : Z) : Z :=
  let m := n / d in
  let r := n mod d in
  if 2 * r <? d then m
  else if d <? 2 * r then m + 1
  else if Z.even m then m else m + 1.

(** The double nearest to a rational (IEEE 754 binary64, round to
    nearest, ties to even): 53 significant bits, the last of weight
    [2^p] with [p >= -1074]; from [2^1024] on the result is infinite. *)
Definition binary64 (q : Q) : JSNumber :=
  let a := Z.abs (Qnum q) in
  let d := Z.pos (Qden q) in
  if a =? 0 then Finite 0
  else
    let e0 := Z.log2 a - Z.log2 d in
    let below := if 0 <=? e0 then a <? d * 2 ^ e0 else a * 2 ^ (- e0) <? d in
    let e := if below then e0 - 1 else e0 in
    let p := Z.max e (-1022) - 52 in
    let m := if 0 <=? p then round_half_even a (d * 2 ^ p)
             else round_half_even (a * 2 ^ (- p)) d in
    if (0 <=? p) && (2 ^ 1024 <=? m * 2 ^ p) then Infinity (Qnum q <? 0)
    else
      let s := if Qnum q <? 0 then - m else m in
      Finite (Qred (if 0 <=? p then inject_Z (s * 2 ^ p)
                    else Qmake s (Z.to_pos (2 ^ (- p))))).

(** Characters are code units below 256.  StrWhiteSpaceChar: TAB, LF, VT,
    FF, CR, SP and NBSP. *)
Definition is_whitespace (c : ascii) : bool :=
  let n := nat_of_ascii c in
  ((9 <=? n)%nat && (n <=? 13)%nat) || (n =? 32)%nat || (n =? 160)%nat.

Fixpoint trim_start (s : string) : string :=
  match s with
  | EmptyString => EmptyString
  | String c s' => if is_whitespace c then trim_start s' else s
  end.

Fixpoint trim_end (s : string) : string :=
  match s with
  | EmptyString => EmptyString
  | String c s' =>
      match trim_end s' with
      | EmptyString => if is_whitespace c then EmptyString else String c EmptyString
      | t => String c t
      end
  end.

Definition trim (s : string) : string := trim_end (trim_start s).

(** The value of a digit in base 16 (letters in either case). *)
Definition hex_value (c : ascii) : option Z :=
  let n := nat_of_ascii c in
  if (48 <=? n)%nat && (n <=? 57)%nat then Some (Z.of_nat (n - 48))
  else if (97 <=? n)%nat && (n <=? 102)%nat then Some (Z.of_nat (n - 87))
  else if (65 <=? n)%nat && (n <=? 70)%nat then Some (Z.of_nat (n - 55))
  else None.

Definition digit_in (radix : Z) (c : ascii) : option Z :=
  match hex_value c with
  | Some d => if d <? radix then Some d else None
  | None => None
  end.

(** The longest prefix of digits of the radix, as digit values, and what
    follows it. *)
Fixpoint span_digits (radix : Z) (s : string) : list Z * string :=
  match s with
  | EmptyString => ([], EmptyString)
  | String c s' =>
      match digit_in radix c with
      | Some d => let (ds, rest) := span_digits radix s' in (d :: ds, rest)
      | None => ([], s)
      end
  end.

(** The mathematical value of a digit sequence. *)
Definition MV (radix : Z) (ds : list Z) : Z :=
  fold_left (fun acc d => radix * acc + d) ds 0.

(** NonDecimalIntegerLiteral: [0x], [0o], [0b] and their capitals, then
    one digit or more and nothing else.  [None]: the text has no such
    prefix. *)
Definition radix_of_prefix (c : ascii) : option Z :=
  match c with
  | "x"%char | "X"%char => Some 16
  | "o"%char | "O"%char => Some 8
  | "b"%char | "B"%char => Some 2
  | _ => None
  end.

Definition non_decimal_literal (t : string) : option JSNumber :=
  match t with
  | String "0"%char (String p r) =>
      match radix_of_prefix p with
      | Some radix =>
          match span_digits radix r with
          | ((_ :: _) as ds, EmptyString) => Some (binary64 (inject_Z (MV radix ds)))
          | _ => Some NaN
          end
      | None => None
      end
  | _ => None
  end.

(** ExponentPart, optional: [e] or [E], an optional sign and one digit or
    more, up to the end of the text.  [None]: malformed. *)
Definition exponent_part (r : string) : option Z :=
  match r with
  | EmptyString => Some 0
  | String c r' =>
      if Ascii.eqb c "e" || Ascii.eqb c "E" then
        let (neg, u) :=
          match r' with
          | String "+"%char u => (false, u)
          | String "-"%char u => (true, u)
          | _ => (false, r')
          end in
        match span_digits 10 u with
        | ((_ :: _) as ds, EmptyString) => Some (if neg : bool then - MV 10 ds else MV 10 ds)
        | _ => None
        end
      else None
  end.

(** StrUnsignedDecimalLiteral: [Infinity], or digits with an optional
    fraction and exponent; [neg] is the sign read in front of it. *)
Definition str_unsigned_decimal_literal (neg : bool) (u : string) : JSNumber :=
  if String.eqb u "Infinity" then Infinity neg
  else
    let (ip, r1) := span_digits 10 u in
    let (fp, r2) :=
      match r1 with
      | String "."%char r => span_digits 10 r
      | _ => ([], r1)
      end in
    match (ip ++ fp)%list with
    | [] => NaN
    | ds =>
        match exponent_part r2 with
        | None => NaN
        | Some e =>
            let q := (Qmake (MV 10 ds) (Z.to_pos (10 ^ Z.of_nat (List.length fp)))
                      * Qpower (inject_Z 10) e)%Q in
            binary64 (if neg then Qopp q else q)
        end
    end.

(** StrDecimalLiteral: an optional sign, then the unsigned literal. *)
Definition str_decimal_literal (t : string) : JSNumber :=
  match t with
  | String "+"%char u => str_unsigned_decimal_literal false u
  | String "-"%char u => str_unsigned_decimal_literal true u
  | _ => str_unsigned_decimal_literal false t
  end.

(** [Number(s)] for a string [s] (ECMAScript StringToNumber): white space
    is trimmed, the empty text is 0, text outside the grammar is NaN. *)
Definition StringToNumber (s : string) : JSNumber :=
  match trim s with
  | EmptyString => Finite 0
  | t =>
      match non_decimal_literal t with
      | Some r => r
      | None => str_decimal_literal t
      end
  end.

(** Mongoose's cast of a string to the schema type [Number]: the empty
    string becomes [null], any other string goes through [Number(...)] and
    NaN is refused. *)
Inductive Cast : Type :=
| CastNull
| CastTo (v : JSNumber)
| CastFails.

Definition castNumber (val : string) : Cast :=
  match val with
  | EmptyString => CastNull
  | _ =>
      match StringToNumber val with
      | NaN => CastFails
      | v => CastTo v
      end
  end.

(** Equality of a query number with a stored identifier (a double
    whose value is an integer). *)
Definition number_eq (v : JSNumber) (n : Z) : bool :=
  match v with
  | Finite q => Qeq_bool q (inject_Z n)
  | _ => false
  end.

(** ** Regular expressions: [new RegExp(pattern, flags)] *)

(** The part of the pattern language that is modelled: a sequence of
    atoms, each a literal character or [.], each optionally followed by
    one of the quantifiers [*], [+], [?] (and by [?] again for the lazy
    variant, which matches the same texts).  The other syntax characters
    ([^ $ \ ( ) [ ] { } |]) are outside the model. *)
Inductive Atom : Type :=
| Lit (c : ascii)
| AnyChar.

Inductive Quantifier : Type :=
| One
| ZeroOrOne
| ZeroOrMore
| OneOrMore.

Definition Term : Type := (Atom * Quantifier)%type.

Record RegExp : Type := mkRegExp {
  source : list Term;
  ignoreCase : bool
}.

Inductive Parse : Type :=
| Parsed (ts : list Term)
| Invalid           (* the engine rejects the pattern *)
| Unmodelled.       (* the pattern uses syntax outside the model *)

Definition quantifier_of (c : ascii) : option Quantifier :=
  match c with
  | "*"%char => Some ZeroOrMore
  | "+"%char => Some OneOrMore
  | "?"%char => Some ZeroOrOne
  | _ => None
  end.

(** SyntaxCharacter of the pattern grammar. *)
Definition is_syntax_character (c : ascii) : bool :=
  match c with
  | "^"%char | "$"%char | "\"%char | "."%char | "*"%char | "+"%char | "?"%char
  | "("%char | ")"%char | "["%char | "]"%char | "{"%char | "}"%char | "|"%char => true
  | _ => false
  end.

Definition atom_of (c : ascii) : option Atom :=
  if Ascii.eqb c "." then Some AnyChar
  else if is_syntax_character c then None
  else Some (Lit c).

Definition parse_cons (t : Term) (r : Parse) : Parse :=
  match r with
  | Parsed ts => Parsed (t :: ts)
  | other => other
  end.

(** A quantifier where an atom is expected is the engine's "nothing to
    repeat" error. *)
Fixpoint parse_terms (s : string) : Parse :=
  match s with
  | EmptyString => Parsed []
  | String c s' =>
      match quantifier_of c with
      | Some _ => Invalid
      | None =>
          match atom_of c with
          | None => Unmodelled
          | Some a =>
              match s' with
              | EmptyString => Parsed [(a, One)]
              | String q s'' =>
                  match quantifier_of q with
                  | Some qt =>
                      parse_cons (a, qt)
                        (parse_terms (match s'' with
                                      | String "?"%char r => r
                                      | _ => s''
                                      end))
                  | None => parse_cons (a, One) (parse_terms s')
                  end
              end
          end
      end
  end.

(** [new RegExp(pattern, flags)] with [flags] empty or ["i"]. *)
Definition RegExp_new (pattern flags : string) : M RegExp :=
  fun w =>
    match (if String.eqb flags "" then Some false
           else if String.eqb flags "i" then Some true else None) with
    | None => (w, OutOfModel)
    | Some ic =>
        match parse_terms pattern with
        | Parsed ts => (w, Returns (mkRegExp ts ic))
        | Invalid => (w, Throws SyntaxError)
        | Unmodelled => (w, OutOfModel)
        end
    end.

(** Case folding under the [i] flag, on code units below 256: the
    letters a-z, and the accented small letters 224-254 (a-grave to
    thorn) other than the division sign 247, go to their capitals, 32
    below; the other characters have no other case below 256 and are
    compared as they are. *)
Definition canonicalize (c : ascii) : ascii :=
  let n := nat_of_ascii c in
  if ((97 <=? n)%nat && (n <=? 122)%nat)
     || ((224 <=? n)%nat && (n <=? 254)%nat && negb (n =? 247)%nat)
  then ascii_of_nat (n - 32) else c.

(** LF and CR, which [.] does not match. *)
Definition is_line_terminator (c : ascii) : bool :=
  let n := nat_of_ascii c in (n =? 10)%nat || (n =? 13)%nat.

Definition atom_matches (ic : bool) (a : Atom) (c : ascii) : bool :=
  match a with
  | Lit x => if ic then Ascii.eqb (canonicalize x) (canonicalize c) else Ascii.eqb x c
  | AnyChar => negb (is_line_terminator c)
  end.

(** Does the term sequence match a prefix of [s]? *)
Fixpoint match_here (ic : bool) (p : list Term) (s : string) {struct p} : bool :=
  match p with
  | [] => true
  | (a, q) :: p' =>
      let once (k : string -> bool) (s : string) : bool :=
        match s with
        | EmptyString => false
        | String c s' => atom_matches ic a c && k s'
        end in
      let many :=
        fix many (s : string) : bool :=
          match_here ic p' s ||
          match s with
          | EmptyString => false
          | String c s' => atom_matches ic a c && many s'
          end in
      match q with
      | One => once (match_here ic p') s
      | ZeroOrOne => once (match_here ic p') s || match_here ic p' s
      | ZeroOrMore => many s
      | OneOrMore => once many s
      end
  end.

(** Unanchored matching, as [$regex] and [RegExp.prototype.test] do. *)
Fixpoint search (ic : bool) (p : list Term) (s : string) : bool :=
  match_here ic p s ||
  match s with
  | EmptyString => false
  | String _ s' => search ic p s'
  end.

Definition RegExp_test (re : RegExp) (s : string) : bool :=
  search (ignoreCase re) (source re) s.

(** ** Queries on the [Book] model *)

(** The conditions the handlers use; a query document is their
    conjunction, [{}] is the empty list. *)
Inductive Cond : Type :=
| bookID_is (val : string)         (* bookID: val *)
| authors_regex (re : RegExp)      (* authors: { $regex: re } *)
| average_rating_gte (x : Q)       (* average_rating: { $gte: x } *)
| num_pages_lte (x : Z).           (* num_pages: { $lte: x } *)

Definition Query : Type := list Cond.

(** Casting a condition to the schema; a [null] identifier matches no
    document, since every document has a [bookID]. *)
Definition cast_cond (c : Cond) : Exn + (Book -> bool) :=
  match c with
  | bookID_is val =>
      match castNumber val with
      | CastFails => inl CastError
      | CastNull => inr (fun _ => false)
      | CastTo v => inr (fun b => number_eq v (bookID b))
      end
  | authors_regex re => inr (fun b => RegExp_test re (authors b))
  | average_rating_gte x => inr (fun b => Qle_bool x (average_rating b))
  | num_pages_lte x => inr (fun b => num_pages b <=? x)
  end.

Fixpoint cast (q : Query) : Exn + (Book -> bool) :=
  match q with
  | [] => inr (fun _ => true)
  | c :: q' =>
      match cast_cond c, cast q' with
      | inl e, _ => inl e
      | _, inl e => inl e
      | inr p, inr p' => inr (fun b => p b && p' b)
      end
  end.

(** [await Book.find(q)]: every matching document, in store order. *)
Definition Book_find (q : Query) : M (list Book) :=
  fun w =>
    match cast q with
    | inl e => (w, Throws e)
    | inr p => (w, Returns (filter p (db w)))
    end.

(** [await Book.findOne(q)]: the first matching document, or [null]. *)
Definition Book_findOne (q : Query) : M (option Book) :=
  fun w =>
    match cast q with
    | inl e => (w, Throws e)
    | inr p => (w, Returns (find p (db w)))
    end.

(** [Book.deleteMany(q)], once completed. *)
Definition Book_deleteMany (q : Query) : M unit :=
  fun w =>
    match cast q with
    | inl e => (w, Throws e)
    | inr p => (mkWorld (filter (fun b => negb (p b)) (db w)) (statusCode w) (calls w),
                Returns tt)
    end.

(** [new Book(bookData).save()], once completed. *)
Definition Book_save (bookData : Book) : M unit :=
  fun w => (mkWorld (db w ++ [bookData]) (statusCode w) (calls w), Returns tt).

(** ** Routes (server.js:51-106) *)

(** The five routes with the parameters Express extracts: [req.params]
    values are strings, [req.query.quickRead] is [undefined] ([None]) or
    the string given in the URL. *)
Inductive Request : Type :=
| GET_root
| GET_books
| GET_books_book (bookID : string)
| GET_books_authors (authorName : string)
| GET_books_top_rated (quickRead : option string).

(** Truthiness of [undefined] and of a string. *)
Definition truthy (v : option string) : bool :=
  match v with
  | None => false
  | Some EmptyString => false
  | Some (String _ _) => true
  end.

Definition greeting : string :=
  "Hello world, welcome to Vane Bookish API, now powered by MongoDB!".
Definition no_book_message : string :=
  "Sorry, no books found with that ID :(".
Definition invalid_id_message : string :=
  "Invalid Book ID, double check book id value".
Definition no_author_message : string :=
  "Sorry, could not find any books by thay author, double check author name :(".

(** server.js:51-53 *)
Definition root_handler : M unit :=
  res_send greeting.

(** server.js:56-59 *)
Definition books_handler : M unit :=
  allBooks <- Book_find [] ;;
  res_json (JBooks allBooks).

(** server.js:62-76 *)
Definition book_handler (bookID : string) : M unit :=
  try_catch
    (singleBook <- Book_findOne [bookID_is bookID] ;;
     match singleBook with
     | Some b => res_json (JBook b)
     | None => res_status 404 ;; res_json (JString no_book_message)
     end)
    (fun err =>
       res_status 400 ;; res_json (JError invalid_id_message)).

(** server.js:79-90 *)
Definition authors_handler (authorName : string) : M unit :=
  let paramsAuthorName := authorName in
  re <- RegExp_new paramsAuthorName "i" ;;
  authorBooks <- Book_find [authors_regex re] ;;
  (if (List.length authorBooks =? 0)%nat
   then res_status 404 ;; res_json (JString no_author_message)
   else ret tt) ;;
  res_json (JBooks authorBooks).

(** server.js:94-106 *)
Definition top_rated_handler (quickRead : option string) : M unit :=
  let quickReadParam := quickRead in
  topBooks <- Book_find [average_rating_gte (inject_Z 4)] ;;
  (if truthy quickReadParam
   then topQuickReadBooks <-
          Book_find [average_rating_gte (inject_Z 4); num_pages_lte 600] ;;
        res_json (JBooks topQuickReadBooks)
   else ret tt) ;;
  res_json (JBooks topBooks).

Definition handler (r : Request) : M unit :=
  match r with
  | GET_root => root_handler
  | GET_books => books_handler
  | GET_books_book bookID => book_handler bookID
  | GET_books_authors authorName => authors_handler authorName
  | GET_books_top_rated quickRead => top_rated_handler quickRead
  end.

(** One request against the collection [store], with a fresh response
    object.  Express 4 ignores the promise an [async] handler returns: a
    [Throws] completion is a rejection nobody handles. *)
Definition serve (store : list Book) (r : Request) : World * Completion unit :=
  handler r (mkWorld store 200 []).

(** The request as the client sees it: the response received, if any. *)
Definition response_to (store : list Book) (r : Request) : option Response :=
  delivered (fst (serve store r)).

(** The text of an integer in a URL. *)
Definition Z_to_string (n : Z) : string :=
  DecimalString.NilZero.string_of_int (Z.to_int n).

(** ** The handlers against the libraries at large *)

(** The handlers above fix the libraries to the part that is modelled:
    the pattern fragment of [parse_terms] and a store that always
    answers.  Here the same handlers are written over the libraries as
    parameters: [new_RegExp S] is what [new RegExp(S, "i")] gives,
    [None] when the engine rejects the pattern and otherwise the test
    that [$regex] applies to a text; [store_fails k] tells whether the
    store rejects the [k]-th operation of the request. *)
Record Libraries : Type := mkLibraries {
  new_RegExp : string -> option (string -> bool);
  store_fails : nat -> bool
}.

(** [await] on the [k]-th store operation: the query is cast first, then
    the store answers or rejects. *)
Definition await_store {A} (L : Libraries) (k : nat) (c : M A) : M A :=
  fun w =>
    match c w with
    | (w', Returns a) =>
        if store_fails L k then (w, Throws MongoError) else (w', Returns a)
    | r => r
    end.

Definition RegExp_in (L : Libraries) (pattern : string) : M (string -> bool) :=
  fun w =>
    match new_RegExp L pattern with
    | Some test => (w, Returns test)
    | None => (w, Throws SyntaxError)
    end.

(** [Book.find({ authors: { $regex: re } })] for any test [re]. *)
Definition Book_find_where (p : Book -> bool) : M (list Book) :=
  fun w => (w, Returns (filter p (db w))).

(** server.js:56-59 *)
Definition books_handler_in (L : Libraries) : M unit :=
  allBooks <- await_store L 0 (Book_find []) ;;
  res_json (JBooks allBooks).

(** server.js:62-76 *)
Definition book_handler_in (L : Libraries) (bookID : string) : M unit :=
  try_catch
    (singleBook <- await_store L 0 (Book_findOne [bookID_is bookID]) ;;
     match singleBook with
     | Some b => res_json (JBook b)
     | None => res_status 404 ;; res_json (JString no_book_message)
     end)
    (fun err =>
       res_status 400 ;; res_json (JError invalid_id_message)).

(** server.js:79-90 *)
Definition authors_handler_in (L : Libraries) (authorName : string) : M unit :=
  let paramsAuthorName := authorName in
  re <- RegExp_in L paramsAuthorName ;;
  authorBooks <- await_store L 0 (Book_find_where (fun b => re (authors b))) ;;
  (if (List.length authorBooks =? 0)%nat
   then res_status 404 ;; res_json (JString no_author_message)
   else ret tt) ;;
  res_json (JBooks authorBooks).

(** server.js:94-106 *)
Definition top_rated_handler_in (L : Libraries) (quickRead : option string) : M unit :=
  let quickReadParam := quickRead in
  topBooks <- await_store L 0 (Book_find [average_rating_gte (inject_Z 4)]) ;;
  (if truthy quickReadParam
   then topQuickReadBooks <-
          await_store L 1
            (Book_find [average_rating_gte (inject_Z 4); num_pages_lte 600]) ;;
        res_json (JBooks topQuickReadBooks)
   else ret tt) ;;
  res_json (JBooks topBooks).

Definition handler_in (L : Libraries) (r : Request) : M unit :=
  match r with
  | GET_root => root_handler
  | GET_books => books_handler_in L
  | GET_books_book bookID => book_handler_in L bookID
  | GET_books_authors authorName => authors_handler_in L authorName
  | GET_books_top_rated quickRead => top_rated_handler_in L quickRead
  end.

Definition serve_in (L : Libraries) (store : list Book) (r : Request)
  : World * Completion unit :=
  handler_in L r (mkWorld store 200 []).

Definition response_in (L : Libraries) (store : list Book) (r : Request)
  : option Response :=
  delivered (fst (serve_in L store r)).

(** The libraries of the handlers above: the modelled patterns, the
    others rejected, and a store that always answers. *)
Definition modelled_libraries : Libraries :=
  mkLibraries
    (fun name => match parse_terms name with
                 | Parsed ts => Some (search true ts)
                 | _ => None
                 end)
    (fun _ => false).

(** The test of a pattern [^S] for a literal text [S]: the subject
    starts with [S], letters compared after case folding. *)
Fixpoint prefix_ci_test (p s : string) : bool :=
  match p, s with
  | EmptyString, _ => true
  | String _ _, EmptyString => false
  | String a p', String b s' =>
      Ascii.eqb (canonicalize a) (canonicalize b) && prefix_ci_test p' s'
  end.

(** The same with a store that rejects every operation. *)
Definition store_down : Libraries :=
  mkLibraries (new_RegExp modelled_libraries) (fun _ => true).

(** Libraries that also take the pattern [^S], which is outside the
    modelled patterns: "starts with S", case-insensitive. *)
Definition anchored_libraries : Libraries :=
  mkLibraries
    (fun name => if String.eqb name "^S" then Some (prefix_ci_test "S")
                 else new_RegExp modelled_libraries name)
    (fun _ => false).

(** [L] does for the request [r] what the handlers above assume. *)
Definition agrees (L : Libraries) (r : Request) : Prop :=
  (forall k, store_fails L k = false)
  /\ match r with
     | GET_books_authors name =>
         match parse_terms name with
         | Parsed ts =>
             exists test, new_RegExp L name = Some test
                          /\ forall s, test s = search true ts s
         | Invalid => new_RegExp L name = None
         | Unmodelled => True
         end
     | _ => True
     end.

(** ** A small collection for examples *)

Definition king : Book :=
  mkBook 1 "The Shining" "Stephen King" (45 # 10) "0000000001" 9780000000001 "eng" 500 10 2.
Definition rowling : Book :=
  mkBook 2 "Harry Potter" "J.K. Rowling" (39 # 10) "0000000002" 9780000000002 "eng" 700 20 3.
Definition tolkien : Book :=
  mkBook 3 "The Lord of the Rings" "J.R.R. Tolkien" (44 # 10) "0000000003" 9780000000003 "eng" 1200 30 4.
Definition shelf : list Book := [king; rowling; tolkien].

(** A record whose id is 2^53. *)
Definition atlas : Book :=
  mkBook 9007199254740992 "Atlas" "Anonymous" (41 # 10) "0000000004" 9780000000004 "eng" 300 5 1.

(** ** Start-up and the seed loader (server.js:29-40, 109-111) *)

(** The module body runs to its end in one turn of the event loop: it
    calls [seedDatabase()] when [RESET_DB] is set, without awaiting the
    promise, and then [app.listen].  [seedDatabase] awaits
    [Book.deleteMany({})] and then starts one [save()] per record of
    [booksData] without awaiting any.  What is left for later turns is the
    completion of the delete, the completion of each save, in any order,
    and the requests. *)
Inductive SeedPhase : Type :=
| NotSeeding
| Deleting                        (* deleteMany issued, not completed *)
| Saving (pending : list Book).   (* saves issued, these not completed *)

Record Server : Type := mkServer {
  store : list Book;
  seeding : SeedPhase;
  listening : bool
}.

(** The collection after a completed collection operation. *)
Definition db_after {A} (c : M A) (st : list Book) : list Book :=
  db (fst (c (mkWorld st 200 []))).

(** The state at the end of the module body; [RESET_DB] is
    [process.env.RESET_DB]. *)
Definition startup (RESET_DB : option string) (st : list Book) : Server :=
  mkServer st (if truthy RESET_DB then Deleting else NotSeeding) true.

Inductive Event : Type :=
| DeleteDone
| SaveDone (b : Book)
| Served (r : Request) (resp : option Response).

Section Steps.

Variable booksData : list Book.

Inductive step : Server -> Event -> Server -> Prop :=
| step_delete : forall st l,
    step (mkServer st Deleting l) DeleteDone
         (mkServer (db_after (Book_deleteMany []) st) (Saving booksData) l)
| step_save : forall st l pre b post,
    step (mkServer st (Saving (pre ++ b :: post)) l) (SaveDone b)
         (mkServer (db_after (Book_save b) st) (Saving (pre ++ post)) l)
| step_request : forall st ph r,
    step (mkServer st ph true) (Served r (response_to st r))
         (mkServer (db (fst (serve st r))) ph true).

Inductive run : Server -> list Event -> Server -> Prop :=
| run_nil : forall s, run s [] s
| run_cons : forall s e s' es s'',
    step s e s' -> run s' es s'' -> run s (e :: es) s''.

End Steps.

(** The reseed is complete when every save has completed. *)
Definition reseed_complete (s : Server) : Prop := seeding s = Saving [].

(** ** The specification's predicates *)

(** "average_rating >= 4.0" *)
Definition top_rated (b : Book) : bool := Qle_bool (inject_Z 4) (average_rating b).

(** "num_pages <= 600" *)
Definition quick_read (b : Book) : bool := num_pages b <=? 600.

(** "contains S as a case-insensitive literal substring" *)
Definition same_letter (a b : ascii) : bool :=
  Ascii.eqb (canonicalize a) (canonicalize b).

Fixpoint prefix_ci (p s : string) : bool :=
  match p, s with
  | EmptyString, _ => true
  | String _ _, EmptyString => false
  | String a p', String b s' => same_letter a b && prefix_ci p' s'
  end.

Fixpoint contains_ci (p s : string) : bool :=
  prefix_ci p s ||
  match s with
  | EmptyString => false
  | String _ s' => contains_ci p s'
  end.

(** "parses as an integer": an optional sign and one decimal digit or
    more, and nothing else. *)
Definition all_decimal_digits (s : string) : bool :=
  match span_digits 10 s with
  | (_ :: _, EmptyString) => true
  | _ => false
  end.

Definition parses_as_integer (s : string) : bool :=
  match s with
  | String "-"%char u => all_decimal_digits u
  | String "+"%char u => all_decimal_digits u
  | _ => all_decimal_digits s
  end.

(** An integer that is a double: rounding leaves it as it is. *)
Definition is_double (n : Z) : bool := number_eq (binary64 (inject_Z n)) n.

(** "N occurs as an id in the dataset" *)
Definition occurs_as_id (n : Z) (st : list Book) : Prop :=
  exists b, In b st /\ bookID b = n.

(** "the first record in store order whose id equals N" *)
Definition first_with_id (n : Z) (st : list Book) (b : Book) : Prop :=
  exists pre post,
    st = (pre ++ b :: post)%list /\ bookID b = n /\ forall x, In x pre -> bookID x <> n.

(** ** Auxiliary definitions for the proofs *)

(** A computation that leaves the collection as it found it. *)
Definition preserves_db {A} (c : M A) : Prop :=
  forall w, db (fst (c w)) = db w.

(** The digit values of a decimal numeral, most significant first. *)
Fixpoint uint_digits (u : Decimal.uint) : list Z :=
  match u with
  | Decimal.Nil => []
  | Decimal.D0 u' => 0 :: uint_digits u'
  | Decimal.D1 u' => 1 :: uint_digits u'
  | Decimal.D2 u' => 2 :: uint_digits u'
  | Decimal.D3 u' => 3 :: uint_digits u'
  | Decimal.D4 u' => 4 :: uint_digits u'
  | Decimal.D5 u' => 5 :: uint_digits u'
  | Decimal.D6 u' => 6 :: uint_digits u'
  | Decimal.D7 u' => 7 :: uint_digits u'
  | Decimal.D8 u' => 8 :: uint_digits u'
  | Decimal.D9 u' => 9 :: uint_digits u'
  end.

(** A pattern without syntax characters, and the terms it stands for. *)
Fixpoint no_syntax_characters (s : string) : bool :=
  match s with
  | EmptyString => true
  | String c s' => negb (is_syntax_character c) && no_syntax_characters s'
  end.

Fixpoint literal_terms (s : string) : list Term :=
  match s with
  | EmptyString => []
  | String c s' => (Lit c, One) :: literal_terms s'
  end.

(** While the seed loader runs, the records saved so far and the ones
    still pending make up the dataset. *)
Definition seed_invariant (booksData : list Book) (s : Server) : Prop :=
  match seeding s with
  | NotSeeding => True
  | Deleting => True
  | Saving pending => Permutation (store s ++ pending) booksData
  end.

(** ** Reading a trace of the server *)

(** The records whose save completed, in the order of completion. *)
Definition saved (es : list Event) : list Book :=
  flat_map (fun e => match e with SaveDone b => [b] | _ => [] end) es.

Definition is_request (e : Event) : bool :=
  match e with Served _ _ => true | _ => false end.

Definition is_delete (e : Event) : bool :=
  match e with DeleteDone => true | _ => false end.

(** The trace without its requests. *)
Definition seeding_events (es : list Event) : list Event :=
  filter (fun e => negb (is_request e)) es.

(** ** Changing the case of a name *)

Fixpoint to_upper (s : string) : string :=
  match s with
  | EmptyString => EmptyString
  | String c s' => String (canonicalize c) (to_upper s')
  end.

Definition upper_term (t : Term) : Term :=
  match t with
  | (Lit c, q) => (Lit (canonicalize c), q)
  | (AnyChar, q) => (AnyChar, q)
  end.

Definition upper_parse (r : Parse) : Parse :=
  match r with
  | Parsed ts => Parsed (map upper_term ts)
  | other => other
  end.

(** Dropping the [?] of a lazy quantifier, as [parse_terms] does. *)
Definition skip_lazy (s : string) : string :=
  match s with
  | String "?"%char r => r
  | _ => s
  end.

(** A text of white space only. *)
Fixpoint blank (s : string) : bool :=
  match s with
  | EmptyString => true
  | String c s' => is_whitespace c && blank s'
  end.

(** A text of ASCII characters (code units below 128). *)
Fixpoint ascii_text (s : string) : bool :=
  match s with
  | EmptyString => true
  | String c s' => (nat_of_ascii c <? 128)%nat && ascii_text s'
  end.

(** A pattern within the modelled fragment: none of the characters
    [^ $ \ ( ) [ ] { } |]. *)
Definition outside_fragment (c : ascii) : bool :=
  match c with
  | "^"%char | "$"%char | "\"%char | "("%char | ")"%char
  | "["%char | "]"%char | "{"%char | "}"%char | "|"%char => true
  | _ => false
  end.

Fixpoint within_fragment (s : string) : bool :=
  match s with
  | EmptyString => true
  | String c s' => negb (outside_fragment c) && within_fragment s'
  end.

(** * Checks on concrete inputs *)

Example StringToNumber_42 : StringToNumber "42" = Finite (42 # 1).
Proof. reflexivity. Qed.

Example StringToNumber_pad : StringToNumber "  -7 " = Finite (-7 # 1).
Proof. reflexivity. Qed.

Example StringToNumber_frac : StringToNumber "1.5" = Finite (3 # 2).
Proof. reflexivity. Qed.

Example StringToNumber_exp : number_eq (StringToNumber "12e-1") 1 = false
                             /\ number_eq (StringToNumber "1.2e1") 12 = true.
Proof. split; reflexivity. Qed.

Example StringToNumber_hex : StringToNumber "0x1F" = Finite (31 # 1).
Proof. reflexivity. Qed.

Example StringToNumber_bad :
  map StringToNumber ["abc"; "12abc"; "1.2.3"; "-0x10"; "."; "1e"; "--1"; "infinity"]
  = [NaN; NaN; NaN; NaN; NaN; NaN; NaN; NaN].
Proof. reflexivity. Qed.

Example StringToNumber_blank : StringToNumber " " = Finite 0.
Proof. reflexivity. Qed.

Example StringToNumber_inf : StringToNumber "-Infinity" = Infinity true.
Proof. reflexivity. Qed.

Example StringToNumber_rounds :
  StringToNumber "9007199254740993" = Finite (9007199254740992 # 1)
  /\ StringToNumber "9007199254740995" = Finite (9007199254740996 # 1)
  /\ StringToNumber "1.0000000000000000001" = Finite (1 # 1)
  /\ StringToNumber "0.1" = Finite (3602879701896397 # 36028797018963968)
  /\ StringToNumber "1.7976931348623157e308" = Finite (inject_Z ((2 ^ 53 - 1) * 2 ^ 971))
  /\ StringToNumber "1.7976931348623159e308" = Infinity false
  /\ StringToNumber "-1e400" = Infinity true
  /\ StringToNumber "1e-400" = Finite 0.
Proof. repeat split; vm_compute; reflexivity. Qed.

Example books_all :
  serve shelf GET_books
  = (mkWorld shelf 200 [mkResponse 200 (JsonBody (JBooks shelf))], Returns tt).
Proof. reflexivity. Qed.

Example book_2 :
  response_to shelf (GET_books_book "2") = Some (mkResponse 200 (JsonBody (JBook rowling))).
Proof. reflexivity. Qed.

Example book_9 :
  response_to shelf (GET_books_book "9")
  = Some (mkResponse 404 (JsonBody (JString no_book_message))).
Proof. reflexivity. Qed.

Example book_abc :
  response_to shelf (GET_books_book "abc")
  = Some (mkResponse 400 (JsonBody (JError invalid_id_message))).
Proof. reflexivity. Qed.

Example authors_tolkien :
  response_to shelf (GET_books_authors "tolkien")
  = Some (mkResponse 200 (JsonBody (JBooks [tolkien]))).
Proof. reflexivity. Qed.

Example authors_king :
  response_to shelf (GET_books_authors "KING")
  = Some (mkResponse 200 (JsonBody (JBooks [king]))).
Proof. reflexivity. Qed.

Example top_rated_plain :
  serve shelf (GET_books_top_rated None)
  = (mkWorld shelf 200 [mkResponse 200 (JsonBody (JBooks [king; tolkien]))], Returns tt).
Proof. reflexivity. Qed.

Example parse_terms_samples :
  parse_terms "ro+w" = Parsed [(Lit "r"%char, One); (Lit "o"%char, OneOrMore); (Lit "w"%char, One)]
  /\ parse_terms "a*?b" = Parsed [(Lit "a"%char, ZeroOrMore); (Lit "b"%char, One)]
  /\ parse_terms ".*" = Parsed [(AnyChar, ZeroOrMore)]
  /\ parse_terms "a**" = Invalid
  /\ parse_terms "?" = Invalid
  /\ parse_terms "(" = Unmodelled.
Proof. repeat split. Qed.

Example search_samples :
  search true [(Lit "k"%char, One); (AnyChar, One); (Lit "n"%char, One)] "Stephen King" = true
  /\ search false [(Lit "k"%char, One)] "Stephen King" = false
  /\ search true [(Lit "x"%char, ZeroOrMore)] "" = true
  /\ search true [(Lit "x"%char, OneOrMore)] "Stephen King" = false.
Proof. repeat split. Qed.

Example top_rated_quick :
  response_to shelf (GET_books_top_rated (Some "1"))
  = Some (mkResponse 200 (JsonBody (JBooks [king]))).
Proof. reflexivity. Qed.

(** * Properties of the handlers *)

(** ** The collection is read-only for handlers *)

Lemma preserves_ret {A} (a : A) : preserves_db (ret a).
Proof. intro w; reflexivity. Qed.

Lemma preserves_bind {A B} (c : M A) (k : A -> M B) :
  preserves_db c -> (forall a, preserves_db (k a)) -> preserves_db (bind c k).
Proof.
  intros Hc Hk w. unfold bind. specialize (Hc w).
  destruct (c w) as [w' [a | e |]]; simpl in *; auto.
  rewrite Hk. exact Hc.
Qed.

Lemma preserves_try_catch {A} (c : M A) (h : Exn -> M A) :
  preserves_db c -> (forall e, preserves_db (h e)) -> preserves_db (try_catch c h).
Proof.
  intros Hc Hh w. unfold try_catch. specialize (Hc w).
  destruct (c w) as [w' [a | e |]]; simpl in *; auto.
  rewrite Hh. exact Hc.
Qed.

Lemma preserves_res_status n : preserves_db (res_status n).
Proof. intro w; reflexivity. Qed.

Lemma preserves_res_write b : preserves_db (res_write b).
Proof. intro w; unfold res_write; destruct (headersSent w); reflexivity. Qed.

Lemma preserves_Book_find q : preserves_db (Book_find q).
Proof. intro w; unfold Book_find; destruct (cast q); reflexivity. Qed.

Lemma preserves_Book_findOne q : preserves_db (Book_findOne q).
Proof. intro w; unfold Book_findOne; destruct (cast q); reflexivity. Qed.

Lemma preserves_RegExp_new p f : preserves_db (RegExp_new p f).
Proof.
  intro w; unfold RegExp_new.
  destruct (if String.eqb f "" then _ else _); [destruct (parse_terms p)|]; reflexivity.
Qed.

Create HintDb frame.
#[local] Hint Resolve preserves_ret preserves_res_status preserves_res_write
  preserves_Book_find preserves_Book_findOne preserves_RegExp_new : frame.

Ltac frame :=
  repeat first
    [ apply preserves_bind; [ | intro ]
    | apply preserves_try_catch; [ | intro ]
    | match goal with
      | |- preserves_db (if ?c then _ else _) => destruct c
      | |- preserves_db (match ?o with Some _ => _ | None => _ end) => destruct o
      end
    | solve [ unfold res_json, res_send; auto with frame ] ].

Lemma handler_preserves_db (r : Request) : preserves_db (handler r).
Proof.
  destruct r; simpl;
    unfold root_handler, books_handler, book_handler, authors_handler,
           top_rated_handler; frame.
Qed.

Lemma serve_db : forall st r, db (fst (serve st r)) = st.
Proof.
  intros st r. unfold serve. now rewrite handler_preserves_db.
Qed.

(** C9. Serving a request on any of the five routes leaves the
    collection as it was: the same records, in the same order, with the
    same fields. *)
Theorem serve_leaves_collection_unchanged :
  forall (st : list Book) (r : Request), db (fst (serve st r)) = st.
Proof.
  intros st r. unfold serve.
  change st with (db (mkWorld st 200 [])) at 2.
  generalize (mkWorld st 200 []). fold (preserves_db (handler r)).
  destruct r; cbn [handler].
  - unfold root_handler. frame.
  - unfold books_handler. frame.
  - unfold book_handler. frame.
  - unfold authors_handler. frame.
  - unfold top_rated_handler. frame.
Qed.

(** ** GET /books/top-rated *)

Lemma filter_top : forall st,
  filter (fun b => Qle_bool (inject_Z 4) (average_rating b) && true) st
  = filter top_rated st.
Proof.
  intro st. apply filter_ext. intro b. unfold top_rated. apply andb_true_r.
Qed.

Lemma filter_top_quick : forall st,
  filter (fun b => Qle_bool (inject_Z 4) (average_rating b)
                   && ((num_pages b <=? 600) && true)) st
  = filter (fun b => top_rated b && quick_read b) st.
Proof.
  intro st. apply filter_ext. intro b. unfold top_rated, quick_read.
  now rewrite andb_true_r.
Qed.

Lemma top_rated_handler_falsy : forall st q,
  truthy q = false ->
  serve st (GET_books_top_rated q)
  = (mkWorld st 200 [mkResponse 200 (JsonBody (JBooks (filter top_rated st)))],
     Returns tt).
Proof.
  intros st q Hq. unfold serve, handler, top_rated_handler. rewrite Hq.
  cbn. now rewrite filter_top.
Qed.

Lemma top_rated_handler_truthy : forall st q,
  truthy q = true ->
  serve st (GET_books_top_rated q)
  = (mkWorld st 200
       [mkResponse 200 (JsonBody (JBooks (filter (fun b => top_rated b && quick_read b) st)));
        mkResponse 200 (JsonBody (JBooks (filter top_rated st)))],
     Throws ERR_HTTP_HEADERS_SENT).
Proof.
  intros st q Hq. unfold serve, handler, top_rated_handler. rewrite Hq.
  cbn. now rewrite filter_top, filter_top_quick.
Qed.

Lemma truthy_nonempty : forall q, q <> "" -> truthy (Some q) = true.
Proof. intros [|c q] H; [now elim H | reflexivity]. Qed.

(** C1. With the [quickRead] flag set the handler does not stop at one
    response: it calls [res.json] with the quick-read set and then again
    with the whole top-rated set; the second call finds the headers sent
    and throws, and nothing catches it. *)
Theorem top_rated_quickRead_calls_res_json_twice :
  forall (st : list Book) (q : string),
    q <> "" ->
    serve st (GET_books_top_rated (Some q))
    = (mkWorld st 200
         [mkResponse 200 (JsonBody (JBooks (filter (fun b => top_rated b && quick_read b) st)));
          mkResponse 200 (JsonBody (JBooks (filter top_rated st)))],
       Throws ERR_HTTP_HEADERS_SENT).
Proof.
  intros st q Hq. apply top_rated_handler_truthy. now apply truthy_nonempty.
Qed.

Lemma top_rated_quickRead_calls_res_json_twice_witness :
  "1" <> ""
  /\ serve shelf (GET_books_top_rated (Some "1"))
     = (mkWorld shelf 200
          [mkResponse 200 (JsonBody (JBooks [king]));
           mkResponse 200 (JsonBody (JBooks [king; tolkien]))],
        Throws ERR_HTTP_HEADERS_SENT).
Proof.
  split; [discriminate | apply (top_rated_quickRead_calls_res_json_twice shelf "1"); discriminate].
Defined.

(** C6. With [quickRead] present and not empty (["false"] included) the
    response the client receives is 200 with exactly the records that
    have [average_rating >= 4] and [num_pages <= 600], in store order. *)
Theorem top_rated_quickRead_response :
  forall (st : list Book) (q : string),
    q <> "" ->
    let l := filter (fun b => top_rated b && quick_read b) st in
    response_to st (GET_books_top_rated (Some q))
    = Some (mkResponse 200 (JsonBody (JBooks l)))
    /\ forall b, In b l <->
                 In b st /\ (4 <= average_rating b)%Q /\ num_pages b <= 600.
Proof.
  intros st q Hq l. split.
  - unfold response_to. rewrite top_rated_handler_truthy by now apply truthy_nonempty.
    reflexivity.
  - intro b. unfold l. rewrite filter_In, andb_true_iff.
    unfold top_rated, quick_read. rewrite Qle_bool_iff, Z.leb_le. tauto.
Qed.

Lemma top_rated_quickRead_response_witness :
  "false" <> ""
  /\ response_to shelf (GET_books_top_rated (Some "false"))
     = Some (mkResponse 200 (JsonBody (JBooks [king]))).
Proof.
  split; [discriminate|].
  apply (proj1 (top_rated_quickRead_response shelf "false" ltac:(discriminate))).
Defined.

(** C10. [quickRead=] with an empty value counts as absent: one call of
    [res.json], with exactly the records that have [average_rating >= 4];
    the page limit is not applied. *)
Theorem top_rated_empty_quickRead :
  forall st : list Book,
    serve st (GET_books_top_rated (Some ""))
    = (mkWorld st 200 [mkResponse 200 (JsonBody (JBooks (filter top_rated st)))],
       Returns tt)
    /\ forall b, In b (filter top_rated st) <-> In b st /\ (4 <= average_rating b)%Q.
Proof.
  intro st. split.
  - now apply top_rated_handler_falsy.
  - intro b. rewrite filter_In. unfold top_rated. now rewrite Qle_bool_iff.
Qed.

(** ** GET /books/book/:bookID *)

(** *** The text of an integer converts to that integer *)

Lemma span_digits_uint : forall u,
  span_digits 10 (DecimalString.NilEmpty.string_of_uint u) = (uint_digits u, "").
Proof.
  induction u; cbn -[span_digits]; try reflexivity;
    cbn; rewrite IHu; reflexivity.
Qed.

Lemma MV_uint_acc : forall u acc,
  fold_left (fun a d => 10 * a + d) (uint_digits u) (Z.pos acc)
  = Z.pos (Pos.of_uint_acc u acc).
Proof.
  induction u; intro acc; cbn [uint_digits fold_left Pos.of_uint_acc];
    try reflexivity; rewrite <- IHu; f_equal; lia.
Qed.

Lemma MV_uint : forall u, MV 10 (uint_digits u) = Z.of_N (Pos.of_uint u).
Proof.
  unfold MV.
  induction u; cbn [uint_digits fold_left Pos.of_uint Z.of_N];
    try reflexivity; try exact IHu;
    match goal with
    | |- fold_left _ _ ?a = _ => change a with (Z.pos (Pos.of_nat (Z.to_nat a)))
    end; cbn [Z.to_nat Pos.to_nat Pos.iter_op Pos.of_nat]; apply MV_uint_acc.
Qed.

Lemma trim_end_cons : forall c s,
  is_whitespace c = false -> trim_end s = s -> trim_end (String c s) = String c s.
Proof.
  intros c s Hc Hs. cbn [trim_end]. rewrite Hs.
  destruct s; [now rewrite Hc | reflexivity].
Qed.

Lemma trim_end_uint : forall u,
  trim_end (DecimalString.NilEmpty.string_of_uint u)
  = DecimalString.NilEmpty.string_of_uint u.
Proof.
  induction u; cbn [DecimalString.NilEmpty.string_of_uint];
    [reflexivity | apply trim_end_cons; [reflexivity | exact IHu] ..].
Qed.

Lemma trim_uint : forall u,
  trim (DecimalString.NilEmpty.string_of_uint u)
  = DecimalString.NilEmpty.string_of_uint u.
Proof.
  intro u. unfold trim.
  replace (trim_start (DecimalString.NilEmpty.string_of_uint u))
    with (DecimalString.NilEmpty.string_of_uint u)
    by (destruct u; reflexivity).
  apply trim_end_uint.
Qed.

Lemma non_decimal_uint : forall u,
  non_decimal_literal (DecimalString.NilEmpty.string_of_uint u) = None.
Proof.
  destruct u as [|u|u|u|u|u|u|u|u|u|u]; try reflexivity.
  destruct u; reflexivity.
Qed.

(** A numeral that is not empty, with or without a minus sign in front,
    converts to its value. *)
Lemma Qeq_bool_Qred : forall x y, Qeq_bool (Qred x) y = Qeq_bool x y.
Proof.
  intros x y. apply eq_true_iff_eq. rewrite !Qeq_bool_iff.
  now rewrite Qred_correct.
Qed.

Lemma round_half_even_exact : forall n d,
  0 < d -> round_half_even (n * d) d = n.
Proof.
  intros n d Hd. unfold round_half_even.
  rewrite Z.div_mul by lia. rewrite Z.mod_mul by lia.
  replace (2 * 0 <? d) with true by (symmetry; apply Z.ltb_lt; lia).
  reflexivity.
Qed.

Lemma round_half_even_one : forall n, round_half_even n 1 = n.
Proof.
  intro n. rewrite <- (Z.mul_1_r n) at 1. apply round_half_even_exact. lia.
Qed.

(** Rounding gives a number. *)
Lemma binary64_never_NaN : forall q, binary64 q <> NaN.
Proof.
  intro q. unfold binary64.
  destruct (Z.abs (Qnum q) =? 0); [discriminate|].
  cbv zeta. destruct (_ && _); discriminate.
Qed.

(** An integer of magnitude at most 2^53 is a double: rounding leaves
    it as it is. *)
Lemma binary64_integer : forall q n,
  Qnum q = n -> Qden q = 1%positive -> Z.abs n <= 2 ^ 53 ->
  exists q', binary64 q = Finite q'
             /\ forall id, Qeq_bool q' (inject_Z id) = (n =? id).
Proof.
  intros q n Hn Hd Hb. unfold binary64. rewrite Hn, Hd.
  destruct (Z.abs n =? 0) eqn:H0.
  - apply Z.eqb_eq in H0. exists 0%Q. split; [reflexivity|].
    intro id. assert (n = 0) by lia. subst n.
    apply eq_true_iff_eq. rewrite Qeq_bool_iff, Z.eqb_eq.
    unfold Qeq. cbn [Qnum Qden inject_Z]. lia.
  - apply Z.eqb_neq in H0.
    assert (Ha : 0 < Z.abs n) by lia.
    change (Z.log2 1) with 0. rewrite Z.sub_0_r.
    set (a := Z.abs n) in *. set (e0 := Z.log2 a).
    destruct (Z.log2_spec a Ha) as [Hlo Hhi]. fold e0 in Hlo, Hhi.
    assert (He0 : 0 <= e0) by apply Z.log2_nonneg.
    assert (He53 : e0 <= 53).
    { unfold e0. rewrite <- (Z.log2_pow2 53) by lia. now apply Z.log2_le_mono. }
    replace (0 <=? e0) with true by (symmetry; apply Z.leb_le; lia).
    replace (a <? 1 * 2 ^ e0) with false by (symmetry; apply Z.ltb_ge; lia).
    replace (Z.max e0 (-1022)) with e0 by lia.
    assert (Hm : (if 0 <=? e0 - 52 then round_half_even a (1 * 2 ^ (e0 - 52))
                  else round_half_even (a * 2 ^ (- (e0 - 52))) 1)
                 * (if 0 <=? e0 - 52 then 2 ^ (e0 - 52) else 1)
                 = a * (if 0 <=? e0 - 52 then 1 else 2 ^ (- (e0 - 52)))).
    { destruct (0 <=? e0 - 52) eqn:Hp.
      - apply Z.leb_le in Hp.
        assert (Hcase : e0 = 52 \/ e0 = 53) by lia.
        destruct Hcase as [E | E]; rewrite E in *.
        + change (2 ^ (52 - 52)) with 1. change (1 * 1) with 1.
          rewrite round_half_even_one. lia.
        + assert (H53 : a = 2 ^ 53) by lia. rewrite H53.
          change (1 * 2 ^ (53 - 52)) with 2.
          change (2 ^ 53) with (2 ^ 52 * 2).
          rewrite round_half_even_exact by lia. reflexivity.
      - rewrite round_half_even_one. lia. }
    set (m := if 0 <=? e0 - 52 then round_half_even a (1 * 2 ^ (e0 - 52))
              else round_half_even (a * 2 ^ (- (e0 - 52))) 1) in *.
    assert (Hno : (0 <=? e0 - 52) && (2 ^ 1024 <=? m * 2 ^ (e0 - 52)) = false).
    { destruct (0 <=? e0 - 52) eqn:Hp; [|reflexivity]. cbn [andb].
      apply Z.leb_gt. rewrite Hm.
      assert (2 ^ 53 < 2 ^ 1024) by (apply Z.pow_lt_mono_r; lia). lia. }
    rewrite Hno.
    eexists. split; [reflexivity|]. intro id.
    rewrite Qeq_bool_Qred. apply eq_true_iff_eq.
    rewrite Qeq_bool_iff, Z.eqb_eq. unfold Qeq.
    destruct (0 <=? e0 - 52) eqn:Hp.
    + cbn [Qnum Qden inject_Z]. rewrite !Z.mul_1_r in *.
      assert (Hs : (if n <? 0 then - m else m) * 2 ^ (e0 - 52) = n).
      { unfold a in Hm. destruct (n <? 0) eqn:Hsg;
          [apply Z.ltb_lt in Hsg | apply Z.ltb_ge in Hsg]; lia. }
      rewrite Hs. reflexivity.
    + apply Z.leb_gt in Hp.
      cbn [Qnum Qden inject_Z].
      assert (Hpow : 0 < 2 ^ (- (e0 - 52))) by (apply Z.pow_pos_nonneg; lia).
      rewrite Z2Pos.id by exact Hpow.
      rewrite !Z.mul_1_r in *.
      assert (Hs : (if n <? 0 then - m else m) = n * 2 ^ (- (e0 - 52))).
      { unfold a in Hm. destruct (n <? 0) eqn:Hsg;
          [apply Z.ltb_lt in Hsg | apply Z.ltb_ge in Hsg]; lia. }
      rewrite Hs. split; intro H.
      * apply Z.mul_cancel_r in H; lia.
      * now rewrite H.
Qed.

Lemma unsigned_literal_uint : forall neg u,
  u <> Decimal.Nil ->
  str_unsigned_decimal_literal neg (DecimalString.NilEmpty.string_of_uint u)
  = binary64 (if neg then - ((Z.of_N (Pos.of_uint u) # 1) * 1)
              else (Z.of_N (Pos.of_uint u) # 1) * 1).
Proof.
  intros neg u Hu. unfold str_unsigned_decimal_literal.
  replace (String.eqb (DecimalString.NilEmpty.string_of_uint u) "Infinity")
    with false by (destruct u; reflexivity).
  rewrite span_digits_uint. rewrite app_nil_r.
  rewrite <- MV_uint.
  destruct u; [now elim Hu | reflexivity ..].
Qed.

Lemma StringToNumber_uint : forall u,
  u <> Decimal.Nil ->
  StringToNumber (DecimalString.NilEmpty.string_of_uint u)
  = binary64 ((Z.of_N (Pos.of_uint u) # 1) * 1).
Proof.
  intros u Hu. unfold StringToNumber. rewrite trim_uint.
  pose proof (non_decimal_uint u) as Hnd.
  pose proof (unsigned_literal_uint false u Hu) as Hs.
  destruct u; [now elim Hu | ..];
    cbn [DecimalString.NilEmpty.string_of_uint] in *; rewrite Hnd; exact Hs.
Qed.

Lemma StringToNumber_neg_uint : forall u,
  u <> Decimal.Nil ->
  StringToNumber (String "-" (DecimalString.NilEmpty.string_of_uint u))
  = binary64 (- ((Z.of_N (Pos.of_uint u) # 1) * 1)).
Proof.
  intros u Hu. unfold StringToNumber, trim.
  cbn [trim_start]. change (is_whitespace "-") with false. cbv iota.
  rewrite trim_end_cons by (reflexivity || apply trim_end_uint).
  cbn [non_decimal_literal str_decimal_literal].
  exact (unsigned_literal_uint true u Hu).
Qed.

Lemma to_uint_not_nil : forall p, Pos.to_uint p <> Decimal.Nil.
Proof.
  intros p H. pose proof (DecimalPos.Unsigned.of_to p) as E.
  rewrite H in E. discriminate E.
Qed.

Lemma NilZero_string_of_uint : forall u,
  u <> Decimal.Nil ->
  DecimalString.NilZero.string_of_uint u = DecimalString.NilEmpty.string_of_uint u.
Proof. intros u Hu. destruct u; [now elim Hu | reflexivity ..]. Qed.

Lemma binary64_ext : forall q q',
  Qnum q = Qnum q' -> Qden q = Qden q' -> binary64 q = binary64 q'.
Proof.
  intros [a d] [a' d'] Ha Hd. cbn in Ha, Hd. now subst.
Qed.

(** The text of an integer converts to the double nearest to it. *)
Lemma StringToNumber_Z_to_string : forall n,
  Z_to_string n <> ""
  /\ StringToNumber (Z_to_string n) = binary64 (inject_Z n).
Proof.
  intro n. unfold Z_to_string.
  destruct n as [|p|p]; cbn [Z.to_int DecimalString.NilZero.string_of_int].
  - split; [discriminate | reflexivity].
  - rewrite NilZero_string_of_uint by apply to_uint_not_nil.
    split.
    + pose proof (to_uint_not_nil p) as Hn.
      destruct (Pos.to_uint p); [now elim Hn | discriminate ..].
    + rewrite StringToNumber_uint by apply to_uint_not_nil.
      rewrite DecimalPos.Unsigned.of_to.
      apply binary64_ext; [apply Z.mul_1_r | reflexivity].
  - rewrite NilZero_string_of_uint by apply to_uint_not_nil.
    split; [discriminate|].
    rewrite StringToNumber_neg_uint by apply to_uint_not_nil.
    rewrite DecimalPos.Unsigned.of_to.
    apply binary64_ext; [|reflexivity].
    cbn [Qnum Qopp Qmult inject_Z Z.of_N]. rewrite Z.mul_1_r. reflexivity.
Qed.

(** Every integer of magnitude at most 2^53 is a double. *)
Lemma small_integers_are_doubles : forall n,
  Z.abs n <= 2 ^ 53 -> is_double n = true.
Proof.
  intros n Hn. unfold is_double.
  destruct (binary64_integer (inject_Z n) n eq_refl eq_refl Hn) as (q & Hq & Heq).
  rewrite Hq. cbn [number_eq]. rewrite Heq. apply Z.eqb_refl.
Qed.

(** A double that is an integer equals a stored id exactly when the two
    integers are the same. *)
Lemma is_double_eq : forall n,
  is_double n = true ->
  exists q, binary64 (inject_Z n) = Finite q
            /\ forall id, Qeq_bool q (inject_Z id) = (n =? id).
Proof.
  intros n H. unfold is_double in H.
  destruct (binary64 (inject_Z n)) as [|neg|q]; try discriminate H.
  exists q. split; [reflexivity|]. intro id.
  cbn [number_eq] in H. apply Qeq_bool_iff in H.
  apply eq_true_iff_eq. rewrite Qeq_bool_iff, Z.eqb_eq, H.
  unfold Qeq. cbn [Qnum Qden inject_Z]. lia.
Qed.

(** *** The handler *)

Lemma find_and_true : forall (p : Book -> bool) st,
  find (fun b => p b && true) st = find p st.
Proof.
  intros p st. induction st as [|x st IH]; cbn; [reflexivity|].
  rewrite andb_true_r, IH. reflexivity.
Qed.

Lemma find_first : forall (p : Book -> bool) st b,
  find p st = Some b ->
  exists pre post,
    st = (pre ++ b :: post)%list /\ p b = true /\ forall x, In x pre -> p x = false.
Proof.
  intros p st b. induction st as [|x st IH]; cbn; [discriminate|].
  destruct (p x) eqn:Hx.
  - intros [= ->]. exists [], st. repeat split; [exact Hx | intros ? []].
  - intro H. destruct (IH H) as (pre & post & -> & Hb & Hpre).
    exists (x :: pre), post. repeat split; [exact Hb|].
    intros y [<- | Hy]; [exact Hx | now apply Hpre].
Qed.

Lemma book_handler_number : forall st S v,
  castNumber S = CastTo v ->
  serve st (GET_books_book S)
  = match find (fun b => number_eq v (bookID b)) st with
    | Some b => (mkWorld st 200 [mkResponse 200 (JsonBody (JBook b))], Returns tt)
    | None => (mkWorld st 404 [mkResponse 404 (JsonBody (JString no_book_message))],
               Returns tt)
    end.
Proof.
  intros st S v Hc.
  unfold serve, handler, book_handler, try_catch, bind, Book_findOne.
  cbn [cast cast_cond]. rewrite Hc. cbn [db].
  rewrite find_and_true.
  destruct (find _ st); reflexivity.
Qed.

Lemma book_handler_cast_fails : forall st S,
  castNumber S = CastFails ->
  serve st (GET_books_book S)
  = (mkWorld st 400 [mkResponse 400 (JsonBody (JError invalid_id_message))], Returns tt).
Proof.
  intros st S Hc.
  unfold serve, handler, book_handler, try_catch, bind, Book_findOne.
  cbn [cast cast_cond]. rewrite Hc. reflexivity.
Qed.

(** C5, as the code has it. For an integer [N] that is a double, as
    every integer of magnitude at most 2^53 is (so that the number read
    from its text is [N] itself): if [N] occurs as an id in the
    collection the route answers 200 with one record, the first in store
    order whose id is [N]; if it does not occur the route answers 404
    with the message "Sorry, no books found with that ID :(". *)
Theorem book_by_id :
  forall (st : list Book) (N : Z),
    is_double N = true ->
    (occurs_as_id N st ->
     exists b,
       first_with_id N st b
       /\ serve st (GET_books_book (Z_to_string N))
          = (mkWorld st 200 [mkResponse 200 (JsonBody (JBook b))], Returns tt))
    /\ (~ occurs_as_id N st ->
        serve st (GET_books_book (Z_to_string N))
        = (mkWorld st 404 [mkResponse 404 (JsonBody (JString no_book_message))],
           Returns tt)).
Proof.
  intros st N HN.
  destruct (StringToNumber_Z_to_string N) as (Hne & Hq0).
  destruct (is_double_eq N HN) as (q & Hq1 & Heq).
  assert (Hq : StringToNumber (Z_to_string N) = Finite q) by congruence.
  assert (Hc : castNumber (Z_to_string N) = CastTo (Finite q)).
  { unfold castNumber. rewrite Hq. destruct (Z_to_string N); [now elim Hne | reflexivity]. }
  rewrite (book_handler_number st _ _ Hc). cbn [number_eq].
  destruct (find (fun b => Qeq_bool q (inject_Z (bookID b))) st) as [b|] eqn:Hf.
  - split.
    + intros _. exists b. split; [|reflexivity].
      destruct (find_first _ _ _ Hf) as (pre & post & -> & Hb & Hpre).
      exists pre, post. split; [reflexivity|].
      rewrite Heq in Hb. apply Z.eqb_eq in Hb. split; [now symmetry|].
      intros x Hx E. specialize (Hpre x Hx). rewrite Heq in Hpre.
      apply Z.eqb_neq in Hpre. congruence.
    + intro Hno. exfalso. apply Hno. exists b.
      apply find_some in Hf. destruct Hf as [Hin Hb].
      rewrite Heq in Hb. apply Z.eqb_eq in Hb. now split.
  - split; [|reflexivity].
    intros (b & Hin & Hid). exfalso.
    pose proof (find_none _ _ Hf b Hin) as Hb. cbn in Hb.
    rewrite Heq in Hb. apply Z.eqb_neq in Hb. congruence.
Qed.

Lemma book_by_id_witness :
  (exists b,
      first_with_id 2 shelf b
      /\ serve shelf (GET_books_book "2")
         = (mkWorld shelf 200 [mkResponse 200 (JsonBody (JBook b))], Returns tt))
  /\ serve shelf (GET_books_book "9")
     = (mkWorld shelf 404 [mkResponse 404 (JsonBody (JString no_book_message))],
        Returns tt).
Proof.
  split.
  - apply (proj1 (book_by_id shelf 2 ltac:(vm_compute; reflexivity))).
    exists rowling. split; [right; left; reflexivity | reflexivity].
  - apply (proj2 (book_by_id shelf 9 ltac:(vm_compute; reflexivity))).
    intros (b & Hin & Hid).
    destruct Hin as [<- | [<- | [<- | []]]]; discriminate Hid.
Defined.

(** C5, as stated, fails: the parameter is read as a double.  The
    integer 2^53 + 1 does not occur as an id in a collection that holds
    the id 2^53, but its text is read as 2^53 and the route answers 200
    with that record instead of 404. *)
Lemma book_absent_id_counterexample :
  Z_to_string 9007199254740993 = "9007199254740993"
  /\ is_double 9007199254740993 = false
  /\ ~ occurs_as_id 9007199254740993 [atlas]
  /\ serve [atlas] (GET_books_book "9007199254740993")
     = (mkWorld [atlas] 200 [mkResponse 200 (JsonBody (JBook atlas))], Returns tt)
  /\ bookID atlas = 9007199254740992.
Proof.
  split; [reflexivity|]. split; [vm_compute; reflexivity|]. split.
  - intros (b & [<- | []] & Hid). discriminate Hid.
  - split; [vm_compute; reflexivity | reflexivity].
Qed.

(** *** Which parameters get 400 *)

Lemma digit_facts : forall c d,
  digit_in 10 c = Some d ->
  is_whitespace c = false /\ radix_of_prefix c = None
  /\ Ascii.eqb c "I" = false /\ Ascii.eqb c "+" = false /\ Ascii.eqb c "-" = false.
Proof.
  intros [[] [] [] [] [] [] [] []] d; cbn; intro H;
    try discriminate H; repeat split.
Qed.

Lemma span_digits_all_trim_end : forall s ds,
  span_digits 10 s = (ds, "") -> trim_end s = s.
Proof.
  induction s as [|c s IH]; intros ds H; [reflexivity|].
  cbn [span_digits] in H.
  destruct (digit_in 10 c) as [d|] eqn:Hd; [|discriminate H].
  destruct (span_digits 10 s) as [ds' rest] eqn:Hs.
  injection H as _ Hrest. subst rest.
  apply trim_end_cons; [apply (digit_facts c d Hd) | now apply (IH ds')].
Qed.

Lemma all_decimal_digits_number : forall u,
  all_decimal_digits u = true ->
  trim u = u
  /\ non_decimal_literal u = None
  /\ (forall neg, str_unsigned_decimal_literal neg u <> NaN)
  /\ exists c u', u = String c u' /\ exists d, digit_in 10 c = Some d.
Proof.
  intros u H. unfold all_decimal_digits in H.
  destruct (span_digits 10 u) as [ds rest] eqn:Hs.
  destruct ds as [|d ds]; [discriminate H|].
  destruct rest; [clear H | discriminate H].
  destruct u as [|c u]; [discriminate Hs|].
  pose proof Hs as Hs0.
  cbn [span_digits] in Hs.
  destruct (digit_in 10 c) as [d0|] eqn:Hd; [|discriminate Hs].
  destruct (digit_facts c d0 Hd) as (Hws & Hpre & HI & _ & _).
  repeat split.
  - unfold trim. cbn [trim_start]. rewrite Hws.
    now apply (span_digits_all_trim_end _ (d :: ds)).
  - cbn [non_decimal_literal].
    destruct u as [|p u].
    + destruct c as [[] [] [] [] [] [] [] []]; reflexivity.
    + destruct (span_digits 10 (String p u)) as [ds' rest'] eqn:Hs'.
      cbn [span_digits] in Hs'.
      destruct (digit_in 10 p) as [dp|] eqn:Hp.
      * destruct (digit_facts p dp Hp) as (_ & Hpp & _).
        rewrite Hpp.
        destruct c as [[] [] [] [] [] [] [] []]; reflexivity.
      * injection Hs' as _ Hr. subst rest'. discriminate Hs.
  - intro neg. unfold str_unsigned_decimal_literal.
    cbn [String.eqb]. rewrite HI.
    rewrite Hs0. cbn [app exponent_part]. apply binary64_never_NaN.
  - exists c, u. split; [reflexivity | now exists d0].
Qed.

(** The text of an integer, with or without a sign, converts to a
    number. *)
Lemma integer_text_is_a_number : forall S,
  parses_as_integer S = true -> StringToNumber S <> NaN.
Proof.
  intros S H. unfold parses_as_integer in H.
  assert (Hcases :
            (exists u, (S = String "-" u \/ S = String "+" u)
                       /\ all_decimal_digits u = true)
            \/ all_decimal_digits S = true).
  { destruct S as [|c S]; [now right|].
    destruct (Ascii.eqb c "-") eqn:Em.
    - apply Ascii.eqb_eq in Em. subst c. left. exists S. split; [now left | exact H].
    - destruct (Ascii.eqb c "+") eqn:Ep.
      + apply Ascii.eqb_eq in Ep. subst c. left. exists S. split; [now right | exact H].
      + right. revert H Em Ep.
        destruct c as [[] [] [] [] [] [] [] []]; cbn; intros; congruence. }
  destruct Hcases as [(u & HS & Hu) | HS].
  - destruct (all_decimal_digits_number u Hu) as (Htrim & _ & Hnum & (c & u' & -> & d & Hd)).
    assert (Htrim_end : trim_end (String c u') = String c u').
    { unfold trim in Htrim. cbn [trim_start] in Htrim.
      rewrite (proj1 (digit_facts c d Hd)) in Htrim. exact Htrim. }
    unfold StringToNumber, trim.
    destruct HS as [-> | ->].
    + cbn [trim_start]. change (is_whitespace "-") with false. cbv iota.
      rewrite trim_end_cons by (reflexivity || exact Htrim_end).
      cbn [non_decimal_literal str_decimal_literal]. apply Hnum.
    + cbn [trim_start]. change (is_whitespace "+") with false. cbv iota.
      rewrite trim_end_cons by (reflexivity || exact Htrim_end).
      cbn [non_decimal_literal str_decimal_literal]. apply Hnum.
  - destruct (all_decimal_digits_number S HS) as (Htrim & Hnd & Hnum & (c & u' & -> & d & Hd)).
    unfold StringToNumber. rewrite Htrim, Hnd.
    destruct (digit_facts c d Hd) as (_ & _ & _ & Hp & Hm).
    replace (str_decimal_literal (String c u'))
      with (str_unsigned_decimal_literal false (String c u')); [apply Hnum|].
    revert Hp Hm.
    destruct c as [[] [] [] [] [] [] [] []]; try reflexivity; cbn; intros; congruence.
Qed.

Lemma book_handler_null : forall st S,
  castNumber S = CastNull ->
  serve st (GET_books_book S)
  = (mkWorld st 404 [mkResponse 404 (JsonBody (JString no_book_message))], Returns tt).
Proof.
  intros st S Hc.
  unfold serve, handler, book_handler, try_catch, bind, Book_findOne.
  cbn [cast cast_cond]. rewrite Hc. cbn [db].
  replace (find (fun _ : Book => false && true) st) with (@None Book);
    [reflexivity|].
  induction st as [|x st IH]; [reflexivity | exact IH].
Qed.

(** C4, as the code has it. A parameter that [Number] turns into NaN
    gets 400 with the body
    [{ error: "Invalid Book ID, double check book id value" }]. *)
Theorem book_not_a_number :
  forall (st : list Book) (S : string),
    StringToNumber S = NaN ->
    serve st (GET_books_book S)
    = (mkWorld st 400 [mkResponse 400 (JsonBody (JError invalid_id_message))], Returns tt).
Proof.
  intros st S Hnan. apply book_handler_cast_fails.
  unfold castNumber. rewrite Hnan. destruct S; [discriminate Hnan | reflexivity].
Qed.

Lemma book_not_a_number_witness :
  StringToNumber "12abc" = NaN
  /\ serve shelf (GET_books_book "12abc")
     = (mkWorld shelf 400 [mkResponse 400 (JsonBody (JError invalid_id_message))],
        Returns tt).
Proof.
  split; [reflexivity|].
  apply (book_not_a_number shelf "12abc"). reflexivity.
Defined.

(** C4, as stated, fails: ["1.5"] is not the text of an integer, yet it
    converts to a number, the lookup runs and the answer is 404. *)
Lemma book_non_integer_counterexample :
  parses_as_integer "1.5" = false
  /\ serve shelf (GET_books_book "1.5")
     = (mkWorld shelf 404 [mkResponse 404 (JsonBody (JString no_book_message))],
        Returns tt).
Proof. split; reflexivity. Qed.

(** ** GET /books/authors/:authorName *)

Lemma authors_handler_parsed : forall st S ts,
  parse_terms S = Parsed ts ->
  serve st (GET_books_authors S)
  = let l := filter (fun b => search true ts (authors b)) st in
    if (List.length l =? 0)%nat
    then (mkWorld st 404
            [mkResponse 404 (JsonBody (JString no_author_message));
             mkResponse 404 (JsonBody (JBooks l))],
          Throws ERR_HTTP_HEADERS_SENT)
    else (mkWorld st 200 [mkResponse 200 (JsonBody (JBooks l))], Returns tt).
Proof.
  intros st S ts Hp.
  unfold serve, handler, authors_handler, bind, RegExp_new, Book_find.
  cbn [String.eqb Ascii.eqb Bool.eqb]. rewrite Hp.
  cbn [cast cast_cond db].
  replace (filter (fun b => RegExp_test (mkRegExp ts true) (authors b) && true) st)
    with (filter (fun b => search true ts (authors b)) st)
    by (apply filter_ext; intro; unfold RegExp_test; cbn; now rewrite andb_true_r).
  cbv zeta.
  destruct (List.length _ =? 0)%nat; reflexivity.
Qed.

Lemma authors_handler_invalid : forall st S,
  parse_terms S = Invalid ->
  serve st (GET_books_authors S) = (mkWorld st 200 [], Throws SyntaxError).
Proof.
  intros st S Hp.
  unfold serve, handler, authors_handler, bind, RegExp_new.
  cbn [String.eqb Ascii.eqb Bool.eqb]. rewrite Hp. reflexivity.
Qed.

Lemma filter_nothing : forall (p : Book -> bool) st,
  (forall b, In b st -> p b = false) -> filter p st = [].
Proof.
  intros p st H. induction st as [|x st IH]; [reflexivity|].
  cbn. rewrite (H x (or_introl eq_refl)). apply IH.
  intros b Hb. apply H. now right.
Qed.

(** *** Patterns without syntax characters are literal *)

Lemma quantifier_is_syntax : forall c,
  is_syntax_character c = false -> quantifier_of c = None.
Proof.
  intros [[] [] [] [] [] [] [] []]; cbn; congruence.
Qed.

Lemma literal_atom : forall c,
  is_syntax_character c = false -> atom_of c = Some (Lit c).
Proof.
  intros [[] [] [] [] [] [] [] []]; cbn; congruence.
Qed.

Lemma parse_terms_literal : forall S,
  no_syntax_characters S = true -> parse_terms S = Parsed (literal_terms S).
Proof.
  induction S as [|c S IH]; [reflexivity|].
  cbn [no_syntax_characters]. intro H.
  apply andb_true_iff in H. destruct H as [Hc HS].
  apply negb_true_iff in Hc. specialize (IH HS).
  cbn [parse_terms literal_terms].
  rewrite (quantifier_is_syntax c Hc), (literal_atom c Hc).
  destruct S as [|q S']; [reflexivity|].
  cbn [no_syntax_characters] in HS.
  apply andb_true_iff in HS. destruct HS as [Hq _].
  apply negb_true_iff in Hq.
  rewrite (quantifier_is_syntax q Hq). rewrite IH. reflexivity.
Qed.

Lemma match_here_literal : forall p s,
  match_here true (literal_terms p) s = prefix_ci p s.
Proof.
  induction p as [|a p IH]; intro s; [reflexivity|].
  cbn [literal_terms match_here prefix_ci].
  destruct s as [|b s]; [reflexivity|].
  cbn [atom_matches]. unfold same_letter. now rewrite IH.
Qed.

Lemma search_literal : forall p s,
  search true (literal_terms p) s = contains_ci p s.
Proof.
  intros p s. induction s as [|b s IH]; cbn [search contains_ci];
    rewrite match_here_literal; [reflexivity | now rewrite IH].
Qed.

(** For a name without syntax characters the route does select by
    case-insensitive containment. *)
Lemma authors_handler_literal : forall st S,
  no_syntax_characters S = true ->
  response_to st (GET_books_authors S)
  = let l := filter (fun b => contains_ci S (authors b)) st in
    match l with
    | [] => Some (mkResponse 404 (JsonBody (JString no_author_message)))
    | _ => Some (mkResponse 200 (JsonBody (JBooks l)))
    end.
Proof.
  intros st S HS. unfold response_to.
  rewrite (authors_handler_parsed st S _ (parse_terms_literal S HS)).
  cbv zeta.
  replace (filter (fun b => search true (literal_terms S) (authors b)) st)
    with (filter (fun b => contains_ci S (authors b)) st)
    by (apply filter_ext; intro; now rewrite search_literal).
  destruct (filter _ st); reflexivity.
Qed.

(** C2. The name is used as a pattern, not escaped: for the name [".*"]
    the route returns every record of the shelf, although no [authors]
    field contains the text ".*"; for ["k.ng"] it returns the record by
    "Stephen King", which does not contain "k.ng". *)
Theorem authors_pattern_not_escaped :
  (serve shelf (GET_books_authors ".*")
   = (mkWorld shelf 200 [mkResponse 200 (JsonBody (JBooks [king; rowling; tolkien]))],
      Returns tt)
   /\ filter (fun b => contains_ci ".*" (authors b)) shelf = [])
  /\ (serve shelf (GET_books_authors "k.ng")
      = (mkWorld shelf 200 [mkResponse 200 (JsonBody (JBooks [king]))], Returns tt)
      /\ filter (fun b => contains_ci "k.ng" (authors b)) shelf = []).
Proof. repeat split; reflexivity. Qed.

(** C3. A failure while the predicate is built is not caught on the
    authors route: for a name the pattern engine rejects, [new RegExp]
    throws, the handler has no [try], and the request ends with no
    response and an exception nobody handles. *)
Theorem authors_invalid_pattern_unhandled :
  forall (st : list Book) (S : string),
    parse_terms S = Invalid ->
    serve st (GET_books_authors S) = (mkWorld st 200 [], Throws SyntaxError)
    /\ response_to st (GET_books_authors S) = None.
Proof.
  intros st S Hp. unfold response_to.
  rewrite (authors_handler_invalid st S Hp). split; reflexivity.
Qed.

Lemma authors_invalid_pattern_unhandled_witness :
  parse_terms "*" = Invalid
  /\ serve shelf (GET_books_authors "*") = (mkWorld shelf 200 [], Throws SyntaxError)
  /\ response_to shelf (GET_books_authors "*") = None.
Proof.
  split; [reflexivity|].
  apply (authors_invalid_pattern_unhandled shelf "*"). reflexivity.
Defined.

(** C7. When no record matches, the 404 is not the only write: the
    handler sends 404 with the message and goes on to call [res.json]
    with the empty array; that call finds the headers sent and throws,
    and nothing catches it. *)
Theorem authors_no_match_calls_res_json_twice :
  forall (st : list Book) (S : string) (ts : list Term),
    parse_terms S = Parsed ts ->
    (forall b, In b st -> search true ts (authors b) = false) ->
    serve st (GET_books_authors S)
    = (mkWorld st 404
         [mkResponse 404 (JsonBody (JString no_author_message));
          mkResponse 404 (JsonBody (JBooks []))],
       Throws ERR_HTTP_HEADERS_SENT).
Proof.
  intros st S ts Hp Hno.
  rewrite (authors_handler_parsed st S ts Hp). cbv zeta.
  rewrite (filter_nothing _ st Hno). reflexivity.
Qed.

Lemma authors_no_match_calls_res_json_twice_witness :
  parse_terms "asimov" = Parsed (literal_terms "asimov")
  /\ serve shelf (GET_books_authors "asimov")
     = (mkWorld shelf 404
          [mkResponse 404 (JsonBody (JString no_author_message));
           mkResponse 404 (JsonBody (JBooks []))],
        Throws ERR_HTTP_HEADERS_SENT).
Proof.
  split; [reflexivity|].
  apply (authors_no_match_calls_res_json_twice shelf "asimov" (literal_terms "asimov"));
    [reflexivity|].
  intros b [<- | [<- | [<- | []]]]; reflexivity.
Defined.

(** ** Start-up and seeding *)

Lemma deleteMany_all : forall st, db_after (Book_deleteMany []) st = [].
Proof.
  intro st. unfold db_after, Book_deleteMany. cbn.
  induction st as [|x st IH]; [reflexivity | exact IH].
Qed.

Lemma save_appends : forall b st, db_after (Book_save b) st = (st ++ [b])%list.
Proof. reflexivity. Qed.

Lemma step_seed_invariant : forall booksData s e s',
  step booksData s e s' -> seed_invariant booksData s -> seed_invariant booksData s'.
Proof.
  intros booksData s e s' Hstep. destruct Hstep; unfold seed_invariant;
    cbn [seeding store]; intro H.
  - rewrite deleteMany_all. apply Permutation_refl.
  - rewrite save_appends. rewrite <- H.
    rewrite <- app_assoc. apply Permutation_app_head.
    cbn. apply Permutation_middle.
  - fold (serve st r). rewrite serve_db. exact H.
Qed.

Lemma run_seed_invariant : forall booksData s es s',
  run booksData s es s' -> seed_invariant booksData s -> seed_invariant booksData s'.
Proof.
  intros booksData s es s' Hrun.
  induction Hrun as [s | s e s' es s'' Hstep Hrun IH]; [auto|].
  intro Hs. apply IH. eapply step_seed_invariant; eassumption.
Qed.

(** What holds of the seed loader: however the completions and requests
    interleave, once every save has completed the collection holds the
    records of the dataset, each once, whatever it held before. *)
Lemma reseed_complete_permutation : forall booksData flag st0 es s,
  truthy (Some flag) = true ->
  run booksData (startup (Some flag) st0) es s ->
  reseed_complete s ->
  Permutation (store s) booksData
  /\ response_to (store s) GET_books
     = Some (mkResponse 200 (JsonBody (JBooks (store s)))).
Proof.
  intros booksData flag st0 es s Hflag Hrun Hdone.
  assert (Hinv : seed_invariant booksData s).
  { eapply run_seed_invariant; [eassumption|].
    unfold seed_invariant, startup. rewrite Hflag. exact I. }
  unfold seed_invariant in Hinv. rewrite Hdone, app_nil_r in Hinv.
  split; [exact Hinv|].
  unfold response_to, serve, handler, books_handler, bind, Book_find. cbn.
  now rewrite filter_true.
Qed.

(** C8. The server accepts requests before the seeding is done: with
    [RESET_DB] set, a dataset of two records and one older record in the
    collection, a request for all books can be answered with the older
    record (nothing deleted yet), with the empty array (just emptied) and
    with one of the two records (partly seeded). *)
Theorem requests_observe_seeding :
  let booksData := [king; rowling] in
  let s0 := startup (Some "true") [tolkien] in
  run booksData s0
      [Served GET_books (Some (mkResponse 200 (JsonBody (JBooks [tolkien]))))]
      (mkServer [tolkien] Deleting true)
  /\ run booksData s0
       [DeleteDone;
        Served GET_books (Some (mkResponse 200 (JsonBody (JBooks []))))]
       (mkServer [] (Saving [king; rowling]) true)
  /\ run booksData s0
       [DeleteDone; SaveDone rowling;
        Served GET_books (Some (mkResponse 200 (JsonBody (JBooks [rowling]))))]
       (mkServer [rowling] (Saving [king]) true).
Proof.
  cbv zeta. unfold startup. cbn [truthy].
  repeat split.
  - eapply run_cons; [apply (step_request _ [tolkien] Deleting GET_books) | apply run_nil].
  - eapply run_cons; [apply step_delete|].
    eapply run_cons;
      [apply (step_request _ [] (Saving [king; rowling]) GET_books) | apply run_nil].
  - eapply run_cons; [apply step_delete|].
    eapply run_cons; [apply (step_save _ [] true [king] rowling [])|].
    eapply run_cons;
      [apply (step_request _ [rowling] (Saving [king]) GET_books) | apply run_nil].
Qed.

(** * Further properties of the routes *)

(** X1. Without the [quickRead] parameter the top-rated route makes one
    call of [res.json], with exactly the records rated 4 or more, and
    returns. *)
Theorem top_rated_without_flag :
  forall st : list Book,
    serve st (GET_books_top_rated None)
    = (mkWorld st 200 [mkResponse 200 (JsonBody (JBooks (filter top_rated st)))],
       Returns tt)
    /\ forall b, In b (filter top_rated st) <-> In b st /\ (4 <= average_rating b)%Q.
Proof.
  intro st. split.
  - now apply top_rated_handler_falsy.
  - intro b. rewrite filter_In. unfold top_rated. now rewrite Qle_bool_iff.
Qed.

(** [GET /books] answers 200 with every record, in store order. *)
Lemma books_returns_all :
  forall st : list Book,
    serve st GET_books
    = (mkWorld st 200 [mkResponse 200 (JsonBody (JBooks st))], Returns tt).
Proof.
  intro st. unfold serve, handler, books_handler, bind, Book_find. cbn.
  now rewrite filter_true.
Qed.

(** [GET /] answers 200 with the greeting and reads no data. *)
Lemma root_greeting :
  forall st : list Book,
    serve st GET_root = (mkWorld st 200 [mkResponse 200 (Text greeting)], Returns tt).
Proof. reflexivity. Qed.

(** X4. For an ASCII name without pattern syntax characters, on a
    collection whose [authors] fields are ASCII, the client of the authors
    route receives 200 with exactly the records whose [authors] field
    contains the name, letters compared without regard to case, or 404
    with the message when there is none. *)
Theorem authors_literal_name :
  forall (st : list Book) (S : string),
    no_syntax_characters S = true ->
    ascii_text S = true ->
    (forall b, In b st -> ascii_text (authors b) = true) ->
    response_to st (GET_books_authors S)
    = match filter (fun b => contains_ci S (authors b)) st with
      | [] => Some (mkResponse 404 (JsonBody (JString no_author_message)))
      | l => Some (mkResponse 200 (JsonBody (JBooks l)))
      end.
Proof.
  intros st S HS _ _. rewrite (authors_handler_literal st S HS). cbv zeta.
  destruct (filter _ st); reflexivity.
Qed.

Lemma authors_literal_name_witness :
  response_to shelf (GET_books_authors "tolkien")
  = Some (mkResponse 200 (JsonBody (JBooks [tolkien]))).
Proof.
  apply (authors_literal_name shelf "tolkien"); [reflexivity | reflexivity |].
  intros b [<- | [<- | [<- | []]]]; reflexivity.
Defined.

(** X7. The single-record route always makes exactly one call of
    [res.json] and returns: whatever the parameter, no failure leaves its
    handler. *)
Theorem book_route_single_response :
  forall (st : list Book) (S : string),
    exists r : Response,
      serve st (GET_books_book S) = (mkWorld st (status r) [r], Returns tt)
      /\ (status r = 200 \/ status r = 404 \/ status r = 400)%nat.
Proof.
  intros st S. destruct (castNumber S) as [|v|] eqn:Hc.
  - rewrite (book_handler_null st S Hc).
    exists (mkResponse 404 (JsonBody (JString no_book_message))).
    split; [reflexivity | cbn; auto].
  - rewrite (book_handler_number st S v Hc).
    destruct (find _ st) as [b|].
    + exists (mkResponse 200 (JsonBody (JBook b))). split; [reflexivity | cbn; auto].
    + exists (mkResponse 404 (JsonBody (JString no_book_message))).
      split; [reflexivity | cbn; auto].
  - rewrite (book_handler_cast_fails st S Hc).
    exists (mkResponse 400 (JsonBody (JError invalid_id_message))).
    split; [reflexivity | cbn; auto].
Qed.

(** X8. Once every save of the seed loader has completed, however the
    completions and the requests interleaved, the collection holds the
    records of the dataset, each once, whatever it held before, and
    [GET /books] returns them. *)
Theorem reseed_completes_with_dataset :
  forall (booksData : list Book) (flag : string) (st0 : list Book)
         (es : list Event) (s : Server),
    flag <> "" ->
    run booksData (startup (Some flag) st0) es s ->
    reseed_complete s ->
    Permutation (store s) booksData
    /\ response_to (store s) GET_books
       = Some (mkResponse 200 (JsonBody (JBooks (store s)))).
Proof.
  intros booksData flag st0 es s Hflag Hrun Hdone.
  apply (reseed_complete_permutation booksData flag st0 es s);
    [now apply truthy_nonempty | exact Hrun | exact Hdone].
Qed.

Lemma reseed_completes_with_dataset_witness :
  Permutation [rowling; king] [king; rowling]
  /\ response_to [rowling; king] GET_books
     = Some (mkResponse 200 (JsonBody (JBooks [rowling; king]))).
Proof.
  apply (reseed_completes_with_dataset [king; rowling] "true" [tolkien]
           [DeleteDone; SaveDone rowling; Served GET_books (Some (mkResponse 200 (JsonBody (JBooks [rowling])))); SaveDone king]
           (mkServer [rowling; king] (Saving []) true)).
  - discriminate.
  - unfold startup. cbn [truthy].
    eapply run_cons; [apply step_delete|].
    eapply run_cons; [apply (step_save _ [] true [king] rowling [])|].
    eapply run_cons; [apply (step_request _ [rowling] (Saving [king]) GET_books)|].
    eapply run_cons; [apply (step_save _ [rowling] true [] king [])|].
    apply run_nil.
  - reflexivity.
Defined.

(** * Further properties of start-up and seeding *)

Lemma run_app_inv : forall booksData es1 es2 s s',
  run booksData s (es1 ++ es2) s' ->
  exists sm, run booksData s es1 sm /\ run booksData sm es2 s'.
Proof.
  intros booksData es1. induction es1 as [|e es1 IH]; intros es2 s s' H.
  - exists s. split; [apply run_nil | exact H].
  - cbn in H. inversion H as [|? ? s1 ? ? Hstep Hrun]; subst.
    destruct (IH _ _ _ Hrun) as (sm & H1 & H2).
    exists sm. split; [eapply run_cons; eassumption | exact H2].
Qed.

Lemma run_app : forall booksData es1 es2 s sm s',
  run booksData s es1 sm -> run booksData sm es2 s' ->
  run booksData s (es1 ++ es2) s'.
Proof.
  intros booksData es1 es2 s sm s' H1 H2.
  induction H1 as [s | s e s1 es sm Hstep Hrun IH]; [exact H2|].
  cbn. eapply run_cons; [exact Hstep | now apply IH].
Qed.


(** From the saving phase on: the collection grows by the completed
    saves, in their order, and they come out of the pending ones. *)
Lemma run_from_saving : forall booksData es st p l s,
  run booksData (mkServer st (Saving p) l) es s ->
  exists p',
    s = mkServer (st ++ saved es) (Saving p') l
    /\ existsb is_delete es = false
    /\ Permutation (saved es ++ p') p.
Proof.
  intros booksData es. induction es as [|e es IH]; intros st p l s H.
  - inversion H; subst. exists p. cbn. rewrite app_nil_r.
    repeat split. apply Permutation_refl.
  - inversion H as [|? ? s1 ? ? Hstep Hrun]; subst.
    inversion Hstep; subst.
    + destruct (IH _ _ _ _ Hrun) as (p' & -> & Hd & Hp).
      exists p'. rewrite save_appends, <- app_assoc. cbn.
      repeat split; [exact Hd|].
      apply Permutation_cons_app. exact Hp.
    + rewrite serve_db in Hrun.
      destruct (IH _ _ _ _ Hrun) as (p' & -> & Hd & Hp).
      exists p'. cbn. repeat split; assumption.
Qed.

(** From start-up with the flag set: either the delete has not completed
    and nothing has changed, or it has and the collection is the list of
    the completed saves. *)
Lemma run_from_deleting : forall booksData es st l s,
  run booksData (mkServer st Deleting l) es s ->
  (s = mkServer st Deleting l /\ existsb is_delete es = false /\ saved es = [])
  \/ (exists p',
        s = mkServer (saved es) (Saving p') l
        /\ existsb is_delete es = true
        /\ Permutation (saved es ++ p') booksData).
Proof.
  intros booksData es. induction es as [|e es IH]; intros st l s H.
  - inversion H; subst. left. repeat split.
  - inversion H as [|? ? s1 ? ? Hstep Hrun]; subst.
    inversion Hstep; subst.
    + right. rewrite deleteMany_all in Hrun.
      destruct (run_from_saving _ _ _ _ _ _ Hrun) as (p' & -> & Hd & Hp).
      exists p'. cbn. repeat split; assumption.
    + rewrite serve_db in Hrun.
      destruct (IH _ _ _ Hrun) as [(-> & Hd & Hs) | (p' & -> & Hd & Hp)].
      * left. cbn. repeat split; assumption.
      * right. exists p'. cbn. repeat split; assumption.
Qed.


Lemma startup_flag : forall flag st0,
  flag <> "" -> startup (Some flag) st0 = mkServer st0 Deleting true.
Proof.
  intros flag st0 H. unfold startup. now rewrite truthy_nonempty.
Qed.



(** X10. With [RESET_DB] set to any text that is not empty, the
    collection is a function of the trace: until the delete completes it
    is the initial collection, and from then on it is the list of the
    records whose save completed, in the order of completion. *)
Theorem collection_follows_the_trace :
  forall (booksData : list Book) (flag : string) (st0 : list Book)
         (es : list Event) (s : Server),
    flag <> "" ->
    run booksData (startup (Some flag) st0) es s ->
    store s = if existsb is_delete es then saved es else st0.
Proof.
  intros booksData flag st0 es s Hflag Hrun.
  rewrite (startup_flag flag st0 Hflag) in Hrun.
  destruct (run_from_deleting _ _ _ _ _ Hrun) as [(-> & Hd & _) | (p' & -> & Hd & _)];
    rewrite Hd; reflexivity.
Qed.

Lemma collection_follows_the_trace_witness :
  store (mkServer [rowling] (Saving [king]) true) = [rowling].
Proof.
  apply (collection_follows_the_trace [king; rowling] "false" [tolkien]
           [Served GET_books (Some (mkResponse 200 (JsonBody (JBooks [tolkien]))));
            DeleteDone; SaveDone rowling]
           (mkServer [rowling] (Saving [king]) true)).
  - discriminate.
  - unfold startup. cbn [truthy].
    eapply run_cons; [apply (step_request _ [tolkien] Deleting GET_books)|].
    eapply run_cons; [apply step_delete|].
    eapply run_cons; [apply (step_save _ [] true [king] rowling [])|].
    apply run_nil.
Defined.

(** X11. The delete completes before any save does, and it completes at
    most once: in every trace a completed save has the completed delete
    before it, and around the completed delete there is no other. *)
Theorem delete_precedes_every_save :
  forall (booksData : list Book) (flag : string) (st0 : list Book)
         (es : list Event) (s : Server),
    flag <> "" ->
    run booksData (startup (Some flag) st0) es s ->
    (forall es1 b es2, es = (es1 ++ SaveDone b :: es2)%list -> In DeleteDone es1)
    /\ (forall es1 es2, es = (es1 ++ DeleteDone :: es2)%list ->
          existsb is_delete es1 = false /\ existsb is_delete es2 = false).
Proof.
  intros booksData flag st0 es s Hflag Hrun.
  rewrite (startup_flag flag st0 Hflag) in Hrun. split.
  - intros es1 b es2 ->.
    destruct (run_app_inv _ _ _ _ _ Hrun) as (sm & H1 & H2).
    inversion H2 as [|? ? s1 ? ? Hstep _]; subst.
    destruct (run_from_deleting _ _ _ _ _ H1) as [(-> & _ & _) | (p' & _ & Hd & _)].
    + inversion Hstep.
    + apply existsb_exists in Hd. destruct Hd as (e & Hin & He).
      destruct e; try discriminate He. exact Hin.
  - intros es1 es2 ->.
    destruct (run_app_inv _ _ _ _ _ Hrun) as (sm & H1 & H2).
    inversion H2 as [|? ? s1 ? ? Hstep Hrest]; subst.
    inversion Hstep; subst.
    destruct (run_from_deleting _ _ _ _ _ H1) as [(E & Hd & _) | (p' & E & _ & _)];
      [|discriminate E].
    split; [exact Hd|].
    destruct (run_from_saving _ _ _ _ _ _ Hrest) as (p' & _ & Hd' & _). exact Hd'.
Qed.

Lemma delete_precedes_every_save_witness :
  In DeleteDone [Served GET_books (Some (mkResponse 200 (JsonBody (JBooks [tolkien])))); DeleteDone].
Proof.
  apply (proj1 (delete_precedes_every_save [king; rowling] "true" [tolkien]
           [Served GET_books (Some (mkResponse 200 (JsonBody (JBooks [tolkien]))));
            DeleteDone; SaveDone rowling]
           (mkServer [rowling] (Saving [king]) true)
           ltac:(discriminate)
           ltac:(unfold startup; cbn [truthy];
                 eapply run_cons; [apply (step_request _ [tolkien] Deleting GET_books)|];
                 eapply run_cons; [apply step_delete|];
                 eapply run_cons; [apply (step_save _ [] true [king] rowling [])|];
                 apply run_nil))
         [Served GET_books (Some (mkResponse 200 (JsonBody (JBooks [tolkien])))); DeleteDone]
         rowling []).
  reflexivity.
Defined.

(** X12. Once the delete has completed, whatever the collection held
    before, every record in it is a record of the dataset, and no two
    records share a [bookID] when no two records of the dataset do (the
    delete is there "to prevent duplicates"). *)
Theorem after_delete_only_dataset_records :
  forall (booksData : list Book) (flag : string) (st0 : list Book)
         (es : list Event) (s : Server),
    flag <> "" ->
    run booksData (startup (Some flag) st0) es s ->
    existsb is_delete es = true ->
    (forall b, In b (store s) -> In b booksData)
    /\ (NoDup (map bookID booksData) -> NoDup (map bookID (store s))).
Proof.
  intros booksData flag st0 es s Hflag Hrun Hdel.
  rewrite (startup_flag flag st0 Hflag) in Hrun.
  destruct (run_from_deleting _ _ _ _ _ Hrun) as [(_ & Hd & _) | (p' & -> & _ & Hp)];
    [congruence|].
  cbn [store]. split.
  - intros b Hb. eapply Permutation_in; [exact Hp|].
    apply in_or_app. now left.
  - intro Hnd.
    assert (Hm : Permutation (map bookID (saved es) ++ map bookID p') (map bookID booksData))
      by (rewrite <- map_app; now apply Permutation_map).
    apply Permutation_sym in Hm.
    pose proof (Permutation_NoDup Hm Hnd) as Hnd'.
    now apply NoDup_app_remove_r in Hnd'.
Qed.

Lemma after_delete_only_dataset_records_witness :
  (forall b, In b [rowling] -> In b [king; rowling])
  /\ (NoDup (map bookID [king; rowling]) -> NoDup (map bookID [rowling])).
Proof.
  apply (after_delete_only_dataset_records [king; rowling] "true" [tolkien; king]
           [DeleteDone; SaveDone rowling]
           (mkServer [rowling] (Saving [king]) true)).
  - discriminate.
  - unfold startup. cbn [truthy].
    eapply run_cons; [apply step_delete|].
    eapply run_cons; [apply (step_save _ [] true [king] rowling [])|].
    apply run_nil.
  - reflexivity.
Defined.



(** X15. Requests do not disturb the seed loader: taking the requests
    out of any trace leaves a trace between the same two states. *)
Theorem requests_do_not_disturb_seeding :
  forall (booksData : list Book) (s : Server) (es : list Event) (s' : Server),
    run booksData s es s' -> run booksData s (seeding_events es) s'.
Proof.
  intros booksData s es s' H.
  induction H as [s | s e s1 es s2 Hstep Hrun IH]; [apply run_nil|].
  inversion Hstep; subst; cbn.
  - eapply run_cons; [apply step_delete | exact IH].
  - eapply run_cons; [apply step_save | exact IH].
  - rewrite serve_db in IH. exact IH.
Qed.

Lemma requests_do_not_disturb_seeding_witness :
  run [king; rowling] (mkServer [tolkien] Deleting true)
      [DeleteDone; SaveDone rowling]
      (mkServer [rowling] (Saving [king]) true).
Proof.
  apply (requests_do_not_disturb_seeding [king; rowling]
           (mkServer [tolkien] Deleting true)
           [Served GET_books (Some (mkResponse 200 (JsonBody (JBooks [tolkien]))));
            DeleteDone;
            Served (GET_books_authors "king") (Some (mkResponse 404 (JsonBody (JString no_author_message))));
            SaveDone rowling]
           (mkServer [rowling] (Saving [king]) true)).
  eapply run_cons; [apply (step_request _ [tolkien] Deleting GET_books)|].
  eapply run_cons; [apply step_delete|].
  eapply run_cons;
    [apply (step_request _ [] (Saving [king; rowling]) (GET_books_authors "king"))|].
  eapply run_cons; [apply (step_save _ [] true [king] rowling [])|].
  apply run_nil.
Defined.

(** * Further properties of the router as a whole *)

Lemma authors_handler_unmodelled : forall st S,
  parse_terms S = Unmodelled ->
  serve st (GET_books_authors S) = (mkWorld st 200 [], OutOfModel).
Proof.
  intros st S Hp.
  unfold serve, handler, authors_handler, bind, RegExp_new.
  cbn [String.eqb Ascii.eqb Bool.eqb]. rewrite Hp. reflexivity.
Qed.

Lemma books_handler_serve : forall st,
  serve st GET_books
  = (mkWorld st 200 [mkResponse 200 (JsonBody (JBooks st))], Returns tt).
Proof.
  intro st. unfold serve, handler, books_handler, bind, Book_find. cbn.
  now rewrite filter_true.
Qed.

Lemma filter_and : forall (p q : Book -> bool) l,
  filter (fun b => p b && q b) l = filter q (filter p l).
Proof.
  intros p q l. induction l as [|x l IH]; [reflexivity|].
  cbn. destruct (p x); cbn; [destruct (q x)|]; now rewrite IH.
Qed.

(** X2. What [GET /books] shows while the seed loader runs: a request
    served after any trace is answered 200 with the initial collection
    if the delete has not completed, and otherwise with exactly the
    records whose save has completed so far, in the order of completion. *)
Theorem books_during_seeding :
  forall (booksData : list Book) (flag : string) (st0 : list Book)
         (es : list Event) (resp : option Response) (s : Server),
    flag <> "" ->
    run booksData (startup (Some flag) st0) (es ++ [Served GET_books resp]) s ->
    resp = Some (mkResponse 200
                   (JsonBody (JBooks (if existsb is_delete es then saved es else st0)))).
Proof.
  intros booksData flag st0 es resp s Hflag Hrun.
  rewrite (startup_flag flag st0 Hflag) in Hrun.
  destruct (run_app_inv _ _ _ _ _ Hrun) as (sm & H1 & H2).
  inversion H2 as [|? ? s1 ? ? Hstep _]; subst.
  inversion Hstep; subst.
  unfold response_to. rewrite books_handler_serve. cbn [fst delivered calls hd_error].
  destruct (run_from_deleting _ _ _ _ _ H1) as [(E & Hd & _) | (p' & E & Hd & _)];
    rewrite Hd; injection E as -> _; reflexivity.
Qed.

Lemma books_during_seeding_witness :
  Some (mkResponse 200 (JsonBody (JBooks [rowling])))
  = Some (mkResponse 200
            (JsonBody (JBooks (if existsb is_delete [DeleteDone; SaveDone rowling]
                               then saved [DeleteDone; SaveDone rowling]
                               else [tolkien])))).
Proof.
  apply (books_during_seeding [king; rowling] "true" [tolkien]
           [DeleteDone; SaveDone rowling]
           (Some (mkResponse 200 (JsonBody (JBooks [rowling]))))
           (mkServer [rowling] (Saving [king]) true)).
  - discriminate.
  - unfold startup. cbn [truthy app].
    eapply run_cons; [apply step_delete|].
    eapply run_cons; [apply (step_save _ [] true [king] rowling [])|].
    eapply run_cons; [apply (step_request _ [rowling] (Saving [king]) GET_books)|].
    apply run_nil.
Defined.

(** X18. The quick-read answer is the plain top-rated answer with the
    long books taken out: the array received with [quickRead] set is the
    array received without it, filtered by [num_pages <= 600], so it is
    never longer and keeps the order. *)
Theorem quick_read_refines_top_rated :
  forall (st : list Book) (q : string),
    q <> "" ->
    exists lq lt,
      response_to st (GET_books_top_rated (Some q))
      = Some (mkResponse 200 (JsonBody (JBooks lq)))
      /\ response_to st (GET_books_top_rated None)
         = Some (mkResponse 200 (JsonBody (JBooks lt)))
      /\ lq = filter quick_read lt
      /\ (List.length lq <= List.length lt)%nat.
Proof.
  intros st q Hq.
  exists (filter (fun b => top_rated b && quick_read b) st), (filter top_rated st).
  unfold response_to.
  rewrite (top_rated_handler_truthy st (Some q) (truthy_nonempty q Hq)).
  rewrite (top_rated_handler_falsy st None eq_refl).
  repeat split.
  - apply filter_and.
  - rewrite filter_and. apply filter_length_le.
Qed.

Lemma quick_read_refines_top_rated_witness :
  exists lq lt,
    response_to shelf (GET_books_top_rated (Some "yes"))
    = Some (mkResponse 200 (JsonBody (JBooks lq)))
    /\ response_to shelf (GET_books_top_rated None)
       = Some (mkResponse 200 (JsonBody (JBooks lt)))
    /\ lq = filter quick_read lt
    /\ (List.length lq <= List.length lt)%nat.
Proof.
  apply (quick_read_refines_top_rated shelf "yes"). discriminate.
Defined.

(** * The case of the author's name does not matter *)

Lemma canonicalize_quantifier : forall c,
  quantifier_of (canonicalize c) = quantifier_of c.
Proof. intros [[] [] [] [] [] [] [] []]; reflexivity. Qed.

Lemma canonicalize_atom : forall c,
  atom_of (canonicalize c)
  = match atom_of c with
    | Some a => Some (fst (upper_term (a, One)))
    | None => None
    end.
Proof. intros [[] [] [] [] [] [] [] []]; reflexivity. Qed.

Lemma canonicalize_idempotent : forall c,
  canonicalize (canonicalize c) = canonicalize c.
Proof. intros [[] [] [] [] [] [] [] []]; reflexivity. Qed.

Lemma upper_term_quantifier : forall a q,
  upper_term (a, q) = (fst (upper_term (a, One)), q).
Proof. intros [c|] q; reflexivity. Qed.

Lemma skip_lazy_to_upper : forall s,
  skip_lazy (to_upper s) = to_upper (skip_lazy s).
Proof.
  intros [|c s]; [reflexivity|].
  destruct c as [[] [] [] [] [] [] [] []]; reflexivity.
Qed.

Lemma skip_lazy_length : forall s,
  (String.length (skip_lazy s) <= String.length s)%nat.
Proof.
  intros [|c s]; [apply le_n|].
  destruct c as [[] [] [] [] [] [] [] []]; cbn; auto.
Qed.

Lemma parse_terms_cons : forall c s',
  parse_terms (String c s')
  = match quantifier_of c with
    | Some _ => Invalid
    | None =>
        match atom_of c with
        | None => Unmodelled
        | Some a =>
            match s' with
            | EmptyString => Parsed [(a, One)]
            | String q s'' =>
                match quantifier_of q with
                | Some qt => parse_cons (a, qt) (parse_terms (skip_lazy s''))
                | None => parse_cons (a, One) (parse_terms s')
                end
            end
        end
    end.
Proof. reflexivity. Qed.

Lemma upper_parse_cons : forall a q r,
  upper_parse (parse_cons (a, q) r)
  = parse_cons (fst (upper_term (a, One)), q) (upper_parse r).
Proof.
  intros a q [ts| |]; cbn [parse_cons upper_parse map]; try reflexivity.
  now rewrite upper_term_quantifier.
Qed.

Lemma parse_terms_to_upper_bounded : forall n s,
  (String.length s <= n)%nat ->
  parse_terms (to_upper s) = upper_parse (parse_terms s).
Proof.
  induction n as [|n IH]; intros s Hn.
  - destruct s; [reflexivity | cbn in Hn; lia].
  - destruct s as [|c s']; [reflexivity|].
    cbn [to_upper]. rewrite !parse_terms_cons.
    rewrite canonicalize_quantifier, canonicalize_atom.
    destruct (quantifier_of c); [reflexivity|].
    destruct (atom_of c) as [a|]; [|reflexivity].
    destruct s' as [|q s'']; cbn [to_upper].
    + cbn [upper_parse map]. now rewrite (upper_term_quantifier a One).
    + rewrite canonicalize_quantifier.
      cbn [String.length] in Hn.
      destruct (quantifier_of q) as [qt|] eqn:Hq.
      * rewrite skip_lazy_to_upper, upper_parse_cons.
        rewrite IH; [reflexivity|].
        pose proof (skip_lazy_length s''). lia.
      * rewrite upper_parse_cons.
        change (String (canonicalize q) (to_upper s'')) with (to_upper (String q s'')).
        rewrite IH; [reflexivity | cbn [String.length]; lia].
Qed.

Lemma parse_terms_to_upper : forall s,
  parse_terms (to_upper s) = upper_parse (parse_terms s).
Proof. intro s. now apply (parse_terms_to_upper_bounded (String.length s)). Qed.

Lemma atom_matches_upper : forall a q c,
  atom_matches true (fst (upper_term (a, q))) c = atom_matches true a c.
Proof.
  intros [x|] q c; cbn; [now rewrite canonicalize_idempotent | reflexivity].
Qed.

Lemma match_here_upper : forall ts s,
  match_here true (map upper_term ts) s = match_here true ts s.
Proof.
  induction ts as [|[a q] ts IH]; intro s; [reflexivity|].
  cbn [map]. rewrite upper_term_quantifier. cbn [match_here].
  assert (Hmany : forall s,
    (fix many (s : string) : bool :=
       match_here true (map upper_term ts) s ||
       match s with
       | EmptyString => false
       | String c s' => atom_matches true (fst (upper_term (a, One))) c && many s'
       end) s
    = (fix many (s : string) : bool :=
         match_here true ts s ||
         match s with
         | EmptyString => false
         | String c s' => atom_matches true a c && many s'
         end) s).
  { induction s0 as [|c s0 IHs]; rewrite IH; [reflexivity|].
    now rewrite atom_matches_upper, IHs. }
  destruct q; destruct s as [|c s]; try reflexivity;
    rewrite ?atom_matches_upper, ?IH, ?Hmany; reflexivity.
Qed.

Lemma search_upper : forall ts s,
  search true (map upper_term ts) s = search true ts s.
Proof.
  intros ts s. induction s as [|c s IH]; cbn [search];
    rewrite match_here_upper; [reflexivity | now rewrite IH].
Qed.

Lemma authors_handler_to_upper : forall st S,
  serve st (GET_books_authors (to_upper S)) = serve st (GET_books_authors S).
Proof.
  intros st S.
  pose proof (parse_terms_to_upper S) as Hu.
  destruct (parse_terms S) as [ts| |] eqn:Hp; cbn [upper_parse] in Hu.
  - rewrite (authors_handler_parsed st _ _ Hu), (authors_handler_parsed st _ _ Hp).
    replace (filter (fun b => search true (map upper_term ts) (authors b)) st)
      with (filter (fun b => search true ts (authors b)) st)
      by (apply filter_ext; intro; now rewrite search_upper).
    reflexivity.
  - now rewrite (authors_handler_invalid st _ Hu), (authors_handler_invalid st _ Hp).
  - now rewrite (authors_handler_unmodelled st _ Hu), (authors_handler_unmodelled st _ Hp).
Qed.

Lemma outside_fragment_atom : forall c,
  quantifier_of c = None -> atom_of c = None -> outside_fragment c = true.
Proof. intros [[] [] [] [] [] [] [] []]; cbn; congruence. Qed.

Lemma within_fragment_skip_lazy : forall s,
  within_fragment s = true -> within_fragment (skip_lazy s) = true.
Proof.
  intros [|c s] H; [reflexivity|].
  cbn [within_fragment] in H. apply andb_true_iff in H. destruct H as [Hc Hs].
  destruct c as [[] [] [] [] [] [] [] []]; cbn [skip_lazy within_fragment];
    try exact Hs; now rewrite Hc, Hs.
Qed.

Lemma parse_cons_modelled : forall t r,
  r <> Unmodelled -> parse_cons t r <> Unmodelled.
Proof. intros t [ts| |] H; cbn; congruence. Qed.

Lemma within_fragment_parse_bounded : forall n s,
  (String.length s <= n)%nat ->
  within_fragment s = true -> parse_terms s <> Unmodelled.
Proof.
  induction n as [|n IH]; intros s Hn Hs.
  - destruct s; [discriminate | cbn in Hn; lia].
  - destruct s as [|c s']; [discriminate|].
    cbn [within_fragment] in Hs. apply andb_true_iff in Hs. destruct Hs as [Hc Hs'].
    apply negb_true_iff in Hc.
    rewrite parse_terms_cons.
    destruct (quantifier_of c) eqn:Hq; [discriminate|].
    destruct (atom_of c) as [a|] eqn:Ha;
      [|rewrite (outside_fragment_atom c Hq Ha) in Hc; discriminate Hc].
    destruct s' as [|q s'']; [discriminate|].
    cbn [String.length] in Hn.
    destruct (quantifier_of q).
    + apply parse_cons_modelled. apply IH.
      * pose proof (skip_lazy_length s''). lia.
      * apply within_fragment_skip_lazy.
        cbn [within_fragment] in Hs'. apply andb_true_iff in Hs'. apply Hs'.
    + apply parse_cons_modelled. apply IH; [cbn [String.length]; lia | exact Hs'].
Qed.

(** X19. For a name within the modelled patterns (literal characters,
    [.], and the quantifiers [*], [+], [?]; none of [^ $ \ ( ) [ ] { } |])
    the authors route does not look at the case of the name: a second
    name that differs from it only in the case of letters gets the same
    handling, the same calls of [res.json] with the same records and the
    same completion. *)
Theorem authors_name_case_insensitive :
  forall (st : list Book) (S S' : string),
    within_fragment S = true ->
    to_upper S = to_upper S' ->
    serve st (GET_books_authors S) = serve st (GET_books_authors S')
    /\ snd (serve st (GET_books_authors S)) <> OutOfModel.
Proof.
  intros st S S' HS H. split.
  - rewrite <- (authors_handler_to_upper st S), <- (authors_handler_to_upper st S').
    now rewrite H.
  - pose proof (within_fragment_parse_bounded _ S (le_n _) HS) as Hp.
    destruct (parse_terms S) as [ts| |] eqn:E; [| |now elim Hp].
    + rewrite (authors_handler_parsed st S ts E). cbv zeta.
      destruct (_ =? _)%nat; discriminate.
    + rewrite (authors_handler_invalid st S E). discriminate.
Qed.

Lemma authors_name_case_insensitive_witness :
  serve shelf (GET_books_authors "Tol.ien") = serve shelf (GET_books_authors "tOL.IEN")
  /\ snd (serve shelf (GET_books_authors "Tol.ien")) <> OutOfModel.
Proof.
  apply (authors_name_case_insensitive shelf "Tol.ien" "tOL.IEN"); reflexivity.
Defined.

(** * White space around the identifier *)

Lemma trim_start_blank : forall l s,
  blank l = true -> trim_start (l ++ s) = trim_start s.
Proof.
  induction l as [|c l IH]; intros s H; [reflexivity|].
  cbn [blank] in H. apply andb_true_iff in H. destruct H as [Hc Hl].
  cbn [append trim_start]. rewrite Hc. now apply IH.
Qed.

Lemma trim_start_blank_only : forall r, blank r = true -> trim_start r = "".
Proof.
  induction r as [|c r IH]; intro H; [reflexivity|].
  cbn [blank] in H. apply andb_true_iff in H. destruct H as [Hc Hr].
  cbn [trim_start]. rewrite Hc. now apply IH.
Qed.

Lemma trim_end_blank_only : forall r, blank r = true -> trim_end r = "".
Proof.
  induction r as [|c r IH]; intro H; [reflexivity|].
  cbn [blank] in H. apply andb_true_iff in H. destruct H as [Hc Hr].
  cbn [trim_end]. rewrite (IH Hr). now rewrite Hc.
Qed.

Lemma trim_end_blank : forall s r,
  blank r = true -> trim_end (s ++ r) = trim_end s.
Proof.
  induction s as [|c s IH]; intros r H.
  - cbn [append]. now apply trim_end_blank_only.
  - cbn [append trim_end]. now rewrite (IH r H).
Qed.

Lemma trim_blank_right : forall s r,
  blank r = true -> trim (s ++ r) = trim s.
Proof.
  unfold trim. induction s as [|c s IH]; intros r H.
  - cbn [append]. now rewrite (trim_start_blank_only r H).
  - cbn [append trim_start]. destruct (is_whitespace c); [now apply IH|].
    change (String c (s ++ r)) with (String c s ++ r). now apply trim_end_blank.
Qed.

Lemma StringToNumber_padded : forall l S r,
  blank l = true -> blank r = true ->
  StringToNumber (l ++ S ++ r) = StringToNumber S.
Proof.
  intros l S r Hl Hr. unfold StringToNumber.
  replace (trim (l ++ S ++ r)) with (trim S); [reflexivity|].
  unfold trim. rewrite (trim_start_blank l _ Hl).
  symmetry. exact (trim_blank_right S r Hr).
Qed.

Lemma book_handler_same_cast : forall st S S',
  castNumber S = castNumber S' ->
  serve st (GET_books_book S) = serve st (GET_books_book S').
Proof.
  intros st S S' H.
  unfold serve, handler, book_handler, try_catch, bind, Book_findOne.
  cbn [cast cast_cond]. now rewrite H.
Qed.

(** X20. White space around the identifier is ignored: a parameter that
    is not empty gets the same answer with blanks (spaces, tabs, line
    ends) added before or after it. *)
Theorem book_id_padding :
  forall (st : list Book) (l S r : string),
    blank l = true -> blank r = true -> S <> "" ->
    serve st (GET_books_book (l ++ S ++ r)) = serve st (GET_books_book S).
Proof.
  intros st l S r Hl Hr HS. apply book_handler_same_cast.
  unfold castNumber. rewrite (StringToNumber_padded l S r Hl Hr).
  destruct S as [|c S]; [now elim HS|].
  destruct l; reflexivity.
Qed.

Lemma book_id_padding_witness :
  serve shelf (GET_books_book " 2  ") = serve shelf (GET_books_book "2").
Proof.
  apply (book_id_padding shelf " " "2" "  "); [reflexivity | reflexivity | discriminate].
Defined.

(** * The routes against the libraries at large *)

Lemma books_in_fails : forall L st,
  store_fails L 0 = true ->
  serve_in L st GET_books = (mkWorld st 200 [], Throws MongoError).
Proof.
  intros L st H.
  unfold serve_in, handler_in, books_handler_in, bind, await_store, Book_find.
  cbn [cast]. now rewrite H.
Qed.

Lemma books_in_answers : forall L st,
  store_fails L 0 = false ->
  serve_in L st GET_books = serve st GET_books.
Proof.
  intros L st H.
  unfold serve_in, serve, handler_in, handler, books_handler_in, books_handler,
    bind, await_store, Book_find.
  cbn [cast]. now rewrite H.
Qed.

Lemma book_in_400 : forall L st S,
  castNumber S = CastFails \/ store_fails L 0 = true ->
  serve_in L st (GET_books_book S)
  = (mkWorld st 400 [mkResponse 400 (JsonBody (JError invalid_id_message))], Returns tt).
Proof.
  intros L st S H.
  unfold serve_in, handler_in, book_handler_in, try_catch, bind, await_store,
    Book_findOne.
  cbn [cast cast_cond].
  destruct (castNumber S) as [|v|]; destruct H as [H | H];
    try discriminate H; try rewrite H; reflexivity.
Qed.

Lemma book_in_answers : forall L st S,
  castNumber S <> CastFails -> store_fails L 0 = false ->
  serve_in L st (GET_books_book S) = serve st (GET_books_book S).
Proof.
  intros L st S Hc H.
  unfold serve_in, serve, handler_in, handler, book_handler_in, book_handler,
    try_catch, bind, await_store, Book_findOne.
  cbn [cast cast_cond].
  destruct (castNumber S) as [|v|]; [| |now elim Hc]; rewrite H; reflexivity.
Qed.

Lemma top_rated_in_fails : forall L st q,
  store_fails L 0 = true \/ (truthy q = true /\ store_fails L 1 = true) ->
  serve_in L st (GET_books_top_rated q) = (mkWorld st 200 [], Throws MongoError).
Proof.
  intros L st q H.
  unfold serve_in, handler_in, top_rated_handler_in, bind, await_store, Book_find.
  cbn [cast cast_cond].
  destruct (store_fails L 0) eqn:H0; [reflexivity|].
  destruct H as [H | [Hq H1]]; [discriminate H|].
  rewrite Hq. cbn [db]. now rewrite H1.
Qed.

Lemma top_rated_in_answers : forall L st q,
  store_fails L 0 = false -> (truthy q = true -> store_fails L 1 = false) ->
  serve_in L st (GET_books_top_rated q) = serve st (GET_books_top_rated q).
Proof.
  intros L st q H0 H1.
  unfold serve_in, serve, handler_in, handler, top_rated_handler_in,
    top_rated_handler, bind, await_store, Book_find.
  cbn [cast cast_cond]. rewrite H0.
  destruct (truthy q); [rewrite (H1 eq_refl)|]; reflexivity.
Qed.

Lemma authors_in_rejected : forall L st S,
  new_RegExp L S = None ->
  serve_in L st (GET_books_authors S) = (mkWorld st 200 [], Throws SyntaxError).
Proof.
  intros L st S H.
  unfold serve_in, handler_in, authors_handler_in, bind, RegExp_in.
  now rewrite H.
Qed.

Lemma authors_in_fails : forall L st S test,
  new_RegExp L S = Some test -> store_fails L 0 = true ->
  serve_in L st (GET_books_authors S) = (mkWorld st 200 [], Throws MongoError).
Proof.
  intros L st S test H H0.
  unfold serve_in, handler_in, authors_handler_in, bind, RegExp_in, await_store,
    Book_find_where.
  now rewrite H, H0.
Qed.

Lemma authors_in_answers : forall L st S test,
  new_RegExp L S = Some test -> store_fails L 0 = false ->
  serve_in L st (GET_books_authors S)
  = match filter (fun b => test (authors b)) st with
    | [] => (mkWorld st 404
               [mkResponse 404 (JsonBody (JString no_author_message));
                mkResponse 404 (JsonBody (JBooks []))],
             Throws ERR_HTTP_HEADERS_SENT)
    | l => (mkWorld st 200 [mkResponse 200 (JsonBody (JBooks l))], Returns tt)
    end.
Proof.
  intros L st S test H H0.
  unfold serve_in, handler_in, authors_handler_in, bind, RegExp_in, await_store,
    Book_find_where.
  rewrite H, H0. cbn [db].
  destruct (filter _ st); reflexivity.
Qed.

(** Where the libraries do what the first handlers assume, the two
    embeddings of the handlers give the same. *)
Lemma serve_in_agrees : forall L st r,
  agrees L r ->
  snd (serve st r) <> OutOfModel ->
  serve_in L st r = serve st r.
Proof.
  intros L st r [Hstore Hre] Hm. destruct r as [| |S|S|q].
  - reflexivity.
  - apply books_in_answers, Hstore.
  - destruct (castNumber S) as [|v|] eqn:Hc.
    + apply book_in_answers; [congruence | apply Hstore].
    + apply book_in_answers; [congruence | apply Hstore].
    + rewrite book_in_400 by now left. symmetry. now apply book_handler_cast_fails.
  - destruct (parse_terms S) as [ts| |] eqn:Hp.
    + destruct Hre as (test & Ht & Hs).
      rewrite (authors_in_answers L st S test Ht (Hstore 0%nat)).
      rewrite (authors_handler_parsed st S ts Hp). cbv zeta.
      replace (filter (fun b => test (authors b)) st)
        with (filter (fun b => search true ts (authors b)) st)
        by (apply filter_ext; intro; now rewrite Hs).
      destruct (filter _ st); reflexivity.
    + rewrite (authors_in_rejected L st S Hre). symmetry.
      now apply authors_handler_invalid.
    + rewrite (authors_handler_unmodelled st S Hp) in Hm. now elim Hm.
  - apply top_rated_in_answers; intros; apply Hstore.
Qed.

(** The ways the single-record route can go. *)
Lemma book_in_cases : forall L st S,
  (exists b, In b st
             /\ serve_in L st (GET_books_book S)
                = (mkWorld st 200 [mkResponse 200 (JsonBody (JBook b))], Returns tt))
  \/ serve_in L st (GET_books_book S)
     = (mkWorld st 404 [mkResponse 404 (JsonBody (JString no_book_message))], Returns tt)
  \/ serve_in L st (GET_books_book S)
     = (mkWorld st 400 [mkResponse 400 (JsonBody (JError invalid_id_message))], Returns tt).
Proof.
  intros L st S.
  destruct (store_fails L 0) eqn:H0; [right; right; apply book_in_400; now right|].
  destruct (castNumber S) as [|v|] eqn:Hc.
  - right; left. rewrite book_in_answers by congruence. now apply book_handler_null.
  - rewrite book_in_answers by congruence.
    rewrite (book_handler_number st S v Hc).
    destruct (find _ st) as [b|] eqn:Hf; [left | right; now left].
    exists b. split; [now apply find_some in Hf | reflexivity].
  - right; right. apply book_in_400. now left.
Qed.

(** X3. The status a client can receive, route by route, whatever the
    parameters, whatever pattern engine and whether or not the store
    answers: [/], [/books] and [/books/top-rated] only ever answer 200 (an
    empty result is 200 with an empty array), [/books/authors/:authorName]
    answers 200 or 404, [/books/book/:bookID] answers 200, 404 or 400.  No
    route answers 500. *)
Theorem status_by_route :
  forall (L : Libraries) (st : list Book) (r : Request) (resp : Response),
    response_in L st r = Some resp ->
    match r with
    | GET_root | GET_books | GET_books_top_rated _ => status resp = 200%nat
    | GET_books_authors _ => status resp = 200%nat \/ status resp = 404%nat
    | GET_books_book _ =>
        status resp = 200%nat \/ status resp = 404%nat \/ status resp = 400%nat
    end.
Proof.
  intros L st r resp H. unfold response_in in H. destruct r as [| |S|S|q].
  - injection H as <-. reflexivity.
  - destruct (store_fails L 0) eqn:H0.
    + rewrite (books_in_fails L st H0) in H. discriminate H.
    + rewrite (books_in_answers L st H0), books_handler_serve in H.
      injection H as <-. reflexivity.
  - destruct (book_in_cases L st S) as [(b & _ & E) | [E | E]];
      rewrite E in H; injection H as <-; cbn; auto.
  - destruct (new_RegExp L S) as [test|] eqn:Ht.
    + destruct (store_fails L 0) eqn:H0.
      * rewrite (authors_in_fails L st S test Ht H0) in H. discriminate H.
      * rewrite (authors_in_answers L st S test Ht H0) in H.
        destruct (filter _ st); injection H as <-; cbn; auto.
    + rewrite (authors_in_rejected L st S Ht) in H. discriminate H.
  - destruct (store_fails L 0) eqn:H0.
    + rewrite top_rated_in_fails in H by now left. discriminate H.
    + destruct (truthy q) eqn:Hq.
      * destruct (store_fails L 1) eqn:H1.
        -- rewrite top_rated_in_fails in H by (right; now split). discriminate H.
        -- rewrite top_rated_in_answers in H by (intros; assumption).
           rewrite (top_rated_handler_truthy st q Hq) in H.
           injection H as <-. reflexivity.
      * rewrite top_rated_in_answers in H by (intros; congruence).
        rewrite (top_rated_handler_falsy st q Hq) in H.
        injection H as <-. reflexivity.
Qed.

Lemma status_by_route_witness :
  status (mkResponse 200 (JsonBody (JBooks [king]))) = 200%nat
  \/ status (mkResponse 200 (JsonBody (JBooks [king]))) = 404%nat.
Proof.
  apply (status_by_route anchored_libraries shelf (GET_books_authors "^S")
           (mkResponse 200 (JsonBody (JBooks [king])))).
  reflexivity.
Defined.

(** X5. When the pattern engine accepts the name, the store answers
    and at least one record passes the test, the authors route makes one
    call of [res.json], 200 with the records that pass, in store order,
    and returns. *)
Theorem authors_match_single_response :
  forall (L : Libraries) (st : list Book) (S : string) (test : string -> bool),
    new_RegExp L S = Some test ->
    store_fails L 0 = false ->
    (exists b, In b st /\ test (authors b) = true) ->
    serve_in L st (GET_books_authors S)
    = (mkWorld st 200
         [mkResponse 200
            (JsonBody (JBooks (filter (fun b => test (authors b)) st)))],
       Returns tt).
Proof.
  intros L st S test Ht H0 (b & Hin & Hb).
  rewrite (authors_in_answers L st S test Ht H0).
  destruct (filter (fun b => test (authors b)) st) as [|x l] eqn:Hf; [|reflexivity].
  exfalso.
  assert (Hb' : In b (filter (fun b => test (authors b)) st))
    by (apply filter_In; now split).
  rewrite Hf in Hb'. exact Hb'.
Qed.

Lemma authors_match_single_response_witness :
  serve_in anchored_libraries shelf (GET_books_authors "^S")
  = (mkWorld shelf 200 [mkResponse 200 (JsonBody (JBooks [king]))], Returns tt).
Proof.
  apply (authors_match_single_response anchored_libraries shelf "^S" (prefix_ci_test "S"));
    [reflexivity | reflexivity |].
  exists king. split; [now left | reflexivity].
Defined.

(** X6. What the 400 of the single-record route means: the client
    receives 400 with the invalid-id body exactly when the cast of the
    parameter to a number fails or the store rejects the lookup (the
    [catch] does not tell them apart); and the cast never fails for the
    text of an integer. *)
Theorem bad_request_causes :
  forall (L : Libraries) (st : list Book) (S : string),
    (response_in L st (GET_books_book S)
     = Some (mkResponse 400 (JsonBody (JError invalid_id_message)))
     <-> castNumber S = CastFails \/ store_fails L 0 = true)
    /\ (parses_as_integer S = true -> castNumber S <> CastFails).
Proof.
  intros L st S. split.
  - split.
    + intro H. unfold response_in in H.
      destruct (store_fails L 0) eqn:H0; [now right|]. left.
      destruct (castNumber S) as [|v|] eqn:Hc; [| |reflexivity].
      * rewrite book_in_answers, (book_handler_null st S Hc) in H by congruence.
        discriminate H.
      * rewrite book_in_answers, (book_handler_number st S v Hc) in H by congruence.
        destruct (find _ st); discriminate H.
    + intro H. unfold response_in. now rewrite (book_in_400 L st S H).
  - intros Hp Hc. apply (integer_text_is_a_number S Hp).
    unfold castNumber in Hc. destruct S as [|c S]; [discriminate Hc|].
    destruct (StringToNumber (String c S)); [reflexivity | discriminate Hc ..].
Qed.

Lemma bad_request_causes_witness :
  response_in store_down shelf (GET_books_book "2")
  = Some (mkResponse 400 (JsonBody (JError invalid_id_message)))
  /\ castNumber "2" <> CastFails.
Proof.
  split.
  - apply (proj1 (bad_request_causes store_down shelf "2")). right. reflexivity.
  - apply (proj2 (bad_request_causes store_down shelf "2")). reflexivity.
Defined.

(** X16. How a request ends, for every route and input, whatever the
    pattern engine and the store do.  A handler that returns has written
    exactly one response.  An exception leaves a handler in three cases
    only: [SyntaxError] on the authors route when the engine rejects the
    name, and [MongoError] on [/books], the authors route and the
    top-rated route when the store rejects an operation, both before
    anything is written; and [ERR_HTTP_HEADERS_SENT] after a second write
    on the authors route and on the top-rated route with a [quickRead]
    that is not empty.  No exception leaves the single-record route, and
    a cast error leaves none. *)
Theorem how_a_request_ends :
  forall (L : Libraries) (st : list Book) (r : Request),
    match snd (serve_in L st r) with
    | Returns _ => List.length (calls (fst (serve_in L st r))) = 1%nat
    | Throws e =>
        (e = SyntaxError /\ calls (fst (serve_in L st r)) = []
         /\ exists S, r = GET_books_authors S /\ new_RegExp L S = None)
        \/ (e = MongoError /\ calls (fst (serve_in L st r)) = []
            /\ (exists k, store_fails L k = true)
            /\ (r = GET_books \/ (exists S, r = GET_books_authors S)
                \/ exists q, r = GET_books_top_rated q))
        \/ (e = ERR_HTTP_HEADERS_SENT
            /\ List.length (calls (fst (serve_in L st r))) = 2%nat
            /\ ((exists S, r = GET_books_authors S)
                \/ exists q, r = GET_books_top_rated (Some q) /\ q <> ""))
    | OutOfModel => False
    end.
Proof.
  intros L st r. destruct r as [| |S|S|q].
  - reflexivity.
  - destruct (store_fails L 0) eqn:H0.
    + rewrite (books_in_fails L st H0). cbn.
      right; left. repeat split; [now exists 0%nat | now left].
    + rewrite (books_in_answers L st H0), books_handler_serve. reflexivity.
  - destruct (book_in_cases L st S) as [(b & _ & E) | [E | E]]; rewrite E; reflexivity.
  - destruct (new_RegExp L S) as [test|] eqn:Ht.
    + destruct (store_fails L 0) eqn:H0.
      * rewrite (authors_in_fails L st S test Ht H0). cbn.
        right; left. repeat split; [now exists 0%nat | right; left; now exists S].
      * rewrite (authors_in_answers L st S test Ht H0).
        destruct (filter _ st); cbn; [|reflexivity].
        right; right. repeat split. left. now exists S.
    + rewrite (authors_in_rejected L st S Ht). cbn.
      left. repeat split. now exists S.
  - destruct (store_fails L 0) eqn:H0.
    + rewrite top_rated_in_fails by now left. cbn.
      right; left. repeat split; [now exists 0%nat | right; right; now exists q].
    + destruct (truthy q) eqn:Hq.
      * destruct (store_fails L 1) eqn:H1.
        -- rewrite top_rated_in_fails by (right; now split). cbn.
           right; left. repeat split; [now exists 1%nat | right; right; now exists q].
        -- rewrite top_rated_in_answers by (intros; assumption).
           rewrite (top_rated_handler_truthy st q Hq). cbn.
           right; right. repeat split. right.
           destruct q as [[|c q]|]; try discriminate Hq.
           exists (String c q). split; [reflexivity | discriminate].
      * rewrite top_rated_in_answers by (intros; congruence).
        rewrite (top_rated_handler_falsy st q Hq). reflexivity.
Qed.

(** X17. No route makes up data: whatever the pattern engine and the
    store do, a record a client receives, alone or in an array, is a
    record of the collection. *)
Theorem delivered_records_are_stored :
  forall (L : Libraries) (st : list Book) (r : Request) (resp : Response) (b : Book),
    response_in L st r = Some resp ->
    (body resp = JsonBody (JBook b)
     \/ exists l, body resp = JsonBody (JBooks l) /\ In b l) ->
    In b st.
Proof.
  intros L st r resp b H Hb. unfold response_in in H. destruct r as [| |S|S|q].
  - injection H as <-. cbn in Hb. destruct Hb as [Hb | (l & Hb & _)]; discriminate Hb.
  - destruct (store_fails L 0) eqn:H0.
    + rewrite (books_in_fails L st H0) in H. discriminate H.
    + rewrite (books_in_answers L st H0), books_handler_serve in H.
      injection H as <-. cbn in Hb.
      destruct Hb as [Hb | (l & Hb & Hin)]; [discriminate Hb|].
      injection Hb as <-. exact Hin.
  - destruct (book_in_cases L st S) as [(b' & Hin & E) | [E | E]];
      rewrite E in H; injection H as <-; cbn in Hb.
    + destruct Hb as [Hb | (l & Hb & _)]; [|discriminate Hb].
      injection Hb as <-. exact Hin.
    + destruct Hb as [Hb | (l & Hb & _)]; discriminate Hb.
    + destruct Hb as [Hb | (l & Hb & _)]; discriminate Hb.
  - destruct (new_RegExp L S) as [test|] eqn:Ht.
    + destruct (store_fails L 0) eqn:H0.
      * rewrite (authors_in_fails L st S test Ht H0) in H. discriminate H.
      * rewrite (authors_in_answers L st S test Ht H0) in H.
        destruct (filter _ st) as [|x l'] eqn:Hf; injection H as <-; cbn in Hb.
        -- destruct Hb as [Hb | (l & Hb & _)]; discriminate Hb.
        -- destruct Hb as [Hb | (l & Hb & Hin)]; [discriminate Hb|].
           injection Hb as <-. rewrite <- Hf in Hin. now apply filter_In in Hin.
    + rewrite (authors_in_rejected L st S Ht) in H. discriminate H.
  - destruct (store_fails L 0) eqn:H0.
    + rewrite top_rated_in_fails in H by now left. discriminate H.
    + destruct (truthy q) eqn:Hq.
      * destruct (store_fails L 1) eqn:H1.
        -- rewrite top_rated_in_fails in H by (right; now split). discriminate H.
        -- rewrite top_rated_in_answers in H by (intros; assumption).
           rewrite (top_rated_handler_truthy st q Hq) in H.
           injection H as <-. cbn in Hb.
           destruct Hb as [Hb | (l & Hb & Hin)]; [discriminate Hb|].
           injection Hb as <-. now apply filter_In in Hin.
      * rewrite top_rated_in_answers in H by (intros; congruence).
        rewrite (top_rated_handler_falsy st q Hq) in H.
        injection H as <-. cbn in Hb.
        destruct Hb as [Hb | (l & Hb & Hin)]; [discriminate Hb|].
        injection Hb as <-. now apply filter_In in Hin.
Qed.

Lemma delivered_records_are_stored_witness : In king shelf.
Proof.
  apply (delivered_records_are_stored anchored_libraries shelf (GET_books_authors "^S")
           (mkResponse 200 (JsonBody (JBooks [king]))) king).
  - reflexivity.
  - right. exists [king]. split; [reflexivity | now left].
Defined.
